(** * go-libdeluge: the Deluge RPC client ([delugeclient.go])

    A shallow embedding of the client's call protocol: the serial counter,
    the request/response cycle of [Client.Rpc], the classification of the
    decoded envelope, the close-once logic of [Client.Close] and the typed
    wrappers built on [Rpc].

    Conventions.
    - Go's [int64] is a [Z]; the only arithmetic on it, [c.serial++], is
      written with its two's-complement wrap-around ([wrap64]).  Go's [int]
      is taken to be 64 bits wide, so [rpcResponseTypeID(mt)] keeps the value.
    - [interface{}] values travelling through rencode are the inductive
      [value], one constructor per dynamic Go type.
    - A nil-able pointer ([*tls.Conn], [*log.Logger], [*DelugeResponse]) and
      the [error] interface are [option]s.
    - The imported packages (rencode, zlib, tls, time) are not part of this
      repository.  Their pure conversions are the interface [Rencode]; the
      outcome of each of their effectful calls during one RPC is a field of
      [rpc_io].  Every theorem holds for all of them.
    - Methods on [*Client] are computations in [M]: they read and update the
      client, append the library calls they make to a trace of [event]s, and
      either return or panic. *)

From Stdlib Require Import ZArith String Ascii List Bool Lia DecimalString.
Import ListNotations.
Set Warnings "-register-all".
Open Scope string_scope.
Open Scope Z_scope.

(** ** Machine integers and formatting *)

Definition MaxInt64 : Z := 2 ^ 63 - 1.
Definition MinInt64 : Z := - 2 ^ 63.

(** Two's-complement reduction of a mathematical integer to [int64]. *)
Definition wrap64 (z : Z) : Z := (z + 2 ^ 63) mod 2 ^ 64 - 2 ^ 63.

Definition in_int64 (z : Z) : Prop := MinInt64 <= z <= MaxInt64.

(** [%d] and [%s] of [fmt.Sprintf]. *)
Definition fmt_d (z : Z) : string := NilZero.string_of_int (Z.to_int z).

Definition newline : string := String (ascii_of_nat 10) EmptyString.

(** [time.Duration] and instants of [time.Time], both in nanoseconds. *)
Definition Duration := Z.
Definition Second : Duration := 1000000000.
Definition DefaultReadWriteTimeout : Duration := Second * 30.

(** ** Values of the wire format *)

Inductive value : Type :=
| VNil
| VBool (b : bool)
| VInt8 (z : Z)
| VInt16 (z : Z)
| VInt32 (z : Z)
| VInt64 (z : Z)
| VBigInt (z : Z)
| VFloat32 (bits : Z)
| VFloat64 (bits : Z)
| VBytes (s : string)
| VString (s : string)
| VList (l : list value)
| VDict (d : list (value * value)).

(** [rencode.List] and [rencode.Dictionary] (keys and values in insertion
    order). *)
Definition List_ := list value.
Definition Dictionary := list (value * value).

(** [%T]: the name of the dynamic type. *)
Definition fmt_T (v : value) : string :=
  match v with
  | VNil => "<nil>"
  | VBool _ => "bool"
  | VInt8 _ => "int8"
  | VInt16 _ => "int16"
  | VInt32 _ => "int32"
  | VInt64 _ => "int64"
  | VBigInt _ => "*big.Int"
  | VFloat32 _ => "float32"
  | VFloat64 _ => "float64"
  | VBytes _ => "[]uint8"
  | VString _ => "string"
  | VList _ => "rencode.List"
  | VDict _ => "rencode.Dictionary"
  end.

(** ** Errors *)

(** An error value created by an imported package. *)
Record lib_error : Type := LibError { lib_text : string }.

(** [RPCError] is an error returned by RPC calls. *)
Record RPCError : Type := mkRPCError { remoteMessage : string }.

Definition RPCError_Error (e : RPCError) : string := remoteMessage e.

(** The error values a caller of this package can receive.
    [ErrAlreadyClosed] is the package-level variable; [errors_New] is a value
    made by [errors.New] at a return site; [OfRPCError] is an [RPCError]
    behind the [error] interface; [OfLib] passes on a library's error. *)
Inductive error : Type :=
| ErrAlreadyClosed
| errors_New (text : string)
| OfRPCError (e : RPCError)
| OfLib (e : lib_error).

Definition error_Error (e : error) : string :=
  match e with
  | ErrAlreadyClosed => "connection is already closed"
  | errors_New text => text
  | OfRPCError r => RPCError_Error r
  | OfLib l => lib_text l
  end.

(** ** Settings, client, response *)

Inductive log_Logger : Type := LoggerSink (id : nat).
Inductive tls_Conn : Type := Socket (id : nat).

Record Settings : Type := mkSettings {
  Hostname : string;
  Port : Z;
  Login : string;
  Password : string;
  Logger : option log_Logger;
  ReadWriteTimeout : Duration
}.

Record Client : Type := mkClient {
  settings : Settings;
  conn : option tls_Conn;
  serial : Z;
  classID : Z
}.

Definition rpcResponseTypeID := Z.
Definition rpcResponse : rpcResponseTypeID := 1.
Definition rpcError : rpcResponseTypeID := 2.
Definition rpcEvent : rpcResponseTypeID := 3.

Record DelugeResponse : Type := mkDelugeResponse {
  messageType : rpcResponseTypeID;
  requestID : Z;
  returnValue : List_;
  exceptionType : string;
  exceptionMessage : string;
  traceBack : string;
  eventName : string;
  data : List_
}.

Definition IsError (dr : DelugeResponse) : bool :=
  messageType dr =? rpcError.

Definition typeStr_of (vs : list value) : string :=
  fold_left (fun acc v => acc ++ (fmt_T v ++ ", ")) vs "".

Definition DelugeResponse_String (dr : DelugeResponse) : string :=
  if messageType dr =? rpcError then
    "RPC error " ++ exceptionType dr ++ "('" ++ exceptionMessage dr ++ "')"
      ++ newline ++ traceBack dr
  else if messageType dr =? rpcResponse then
    fmt_d (Z.of_nat (length (returnValue dr))) ++ " return values ["
      ++ typeStr_of (returnValue dr) ++ "]"
  else
    "invalid message type: " ++ fmt_d (messageType dr).

(** ** The imported packages *)

(** The scans of [rencode.List] the client performs, one per shape of
    targets, and [List.Get]. *)
Class Rencode : Type := {
  Scan_int64 : List_ -> lib_error + Z;
  Scan_int64_int64 : List_ -> lib_error + Z * Z;
  Scan_List : List_ -> lib_error + List_;
  Scan_string3 : List_ -> lib_error + string * string * string;
  Get : List_ -> Z -> lib_error + value
}.

(** What the outside world answers during one call of [Rpc]. *)
Record rpc_io : Type := mkIo {
  Encode : value -> option lib_error;
  zlib_Close : option lib_error;
  Bytes : value -> list Byte.byte;
  conn_Write : list Byte.byte -> Z * option lib_error;
  time_Now : Z;
  conn_SetDeadline : Z -> option lib_error;
  zlib_NewReader : option lib_error;
  Decoder_Scan : lib_error + List_
}.

(** The calls made to the outside world, in the order they are made. *)
Inductive event : Type :=
| EvEncode (payload : value)
| EvLog (sink : log_Logger) (line : string)
| EvDial (addr : string)
| EvWrite (c : tls_Conn) (b : list Byte.byte)
| EvSetDeadline (c : tls_Conn) (t : Z)
| EvNewReader (c : tls_Conn)
| EvDecode (c : tls_Conn)
| EvClose (c : tls_Conn).

(** ** The monad of client methods *)

Inductive result (A : Type) : Type :=
| Returns (a : A)
| Panics (msg : string).
Arguments Returns {A} a.
Arguments Panics {A} msg.

Definition M (A : Type) : Type := Client -> result A * Client * list event.

Definition ret {A} (a : A) : M A := fun c => (Returns a, c, []).

Definition bind {A B} (m : M A) (k : A -> M B) : M B :=
  fun c =>
    match m c with
    | (Returns a, c1, t1) =>
        match k a c1 with
        | (r, c2, t2) => (r, c2, (t1 ++ t2)%list)
        end
    | (Panics msg, c1, t1) => (Panics msg, c1, t1)
    end.

Definition get : M Client := fun c => (Returns c, c, []).
Definition put (c : Client) : M unit := fun _ => (Returns tt, c, []).
Definition emit (e : event) : M unit := fun c => (Returns tt, c, [e]).
Definition panic {A} (msg : string) : M A := fun c => (Panics msg, c, []).

Declare Scope go_scope.
Delimit Scope go_scope with go.
Notation "x <- m ;; k" := (bind m (fun x => k))
  (at level 61, m at next level, right associativity) : go_scope.
Notation "m ;; k" := (bind m (fun _ => k))
  (at level 61, right associativity) : go_scope.
Open Scope go_scope.

Definition set_serial (c : Client) (s : Z) : Client :=
  mkClient (settings c) (conn c) s (classID c).
Definition set_conn (c : Client) (h : option tls_Conn) : Client :=
  mkClient (settings c) h (serial c) (classID c).
Definition set_classID (c : Client) (i : Z) : Client :=
  mkClient (settings c) (conn c) (serial c) i.

(** [if c.settings.Logger != nil { c.settings.Logger.Print...(line) }] *)
Definition log_if_set (line : string) : M unit :=
  c <- get ;;
  match Logger (settings c) with
  | Some sink => emit (EvLog sink line)
  | None => ret tt
  end.

(** A method called through the nil [c.conn] dereferences it. *)
Definition nil_deref : string :=
  "invalid memory address or nil pointer dereference".

Definition of_lib (e : option lib_error) : option error := option_map OfLib e.

(** ** The client's methods *)

(** [New] returns a Deluge client. *)
Definition New (s : Settings) : Client :=
  let s' :=
    if ReadWriteTimeout s =? 0
    then mkSettings (Hostname s) (Port s) (Login s) (Password s) (Logger s)
           DefaultReadWriteTimeout
    else s in
  mkClient s' None 0 0.

(** [Close] closes the connection of a Deluge client; [closed] is what
    [c.conn.Close()] answers if it is called. *)
Definition Close (closed : option lib_error) : M (option error) :=
  c <- get ;;
  match conn c with
  | None => ret (Some ErrAlreadyClosed)
  | Some h =>
      emit (EvClose h) ;;
      let err := of_lib closed in
      put (set_conn c None) ;;
      ret err
  end.

Definition resetTimeout (io : rpc_io) : M (option error) :=
  c <- get ;;
  let t := time_Now io + ReadWriteTimeout (settings c) in
  match conn c with
  | None => panic nil_deref
  | Some h =>
      emit (EvSetDeadline h t) ;;
      ret (of_lib (conn_SetDeadline io t))
  end.

(** The envelope [[serial, method, args, kwargs]], wrapped twice in a list. *)
Definition request_payload (s : Z) (methodName : string) (args : List_)
    (kwargs : Dictionary) : value :=
  VList [VList [VInt64 s; VString methodName; VList args; VDict kwargs]].

Definition msg_mismatch : string := "request/response serial id mismatch".
Definition msg_event : string := "event support not available".
Definition msg_unknown : string := "unknown message type".

Section Methods.
Context {R : Rencode}.

(** The tail of [Rpc]: log the response and return it. *)
Definition Rpc_done (methodName : string) (resp : DelugeResponse)
  : M (option DelugeResponse * option error) :=
  log_if_set ("RPC(" ++ methodName ++ ") = " ++ DelugeResponse_String resp
              ++ newline) ;;
  ret (Some resp, None).

(** The [switch resp.messageType] of [Rpc], on the envelope with its first two
    elements shifted away. *)
Definition Rpc_classify (methodName : string) (mt rid : Z) (respList : List_)
  : M (option DelugeResponse * option error) :=
  if mt =? rpcResponse then
    Rpc_done methodName (mkDelugeResponse mt rid respList "" "" "" "" [])
  else if mt =? rpcError then
    match Scan_List respList with
    | inl e => ret (None, Some (OfLib e))
    | inr errList =>
        match Scan_string3 errList with
        | inl e => ret (None, Some (OfLib e))
        | inr (et, em, tb) =>
            Rpc_done methodName (mkDelugeResponse mt rid [] et em tb "" [])
        end
    end
  else if mt =? rpcEvent then
    ret (None, Some (errors_New msg_event))
  else
    ret (None, Some (errors_New msg_unknown)).

Definition Rpc (io : rpc_io) (methodName : string) (args : List_)
    (kwargs : Dictionary) : M (option DelugeResponse * option error) :=
  (* generate serial *)
  c <- get ;;
  put (set_serial c (wrap64 (serial c + 1))) ;;
  c <- get ;;
  (if serial c =? MaxInt64 then put (set_serial c 1) else ret tt) ;;
  c <- get ;;
  (* rencode -> zlib -> openssl -> TCP *)
  let payload := request_payload (serial c) methodName args kwargs in
  emit (EvEncode payload) ;;
  match Encode io payload with
  | Some e => ret (None, Some (OfLib e))
  | None =>
  (* flush zlib-compressed buffer *)
  match zlib_Close io with
  | Some e => ret (None, Some (OfLib e))
  | None =>
  log_if_set ("flushed zlib buffer" ++ newline) ;;
  (* write to connection without closing it *)
  match conn c with
  | None => panic nil_deref
  | Some h =>
  emit (EvWrite h (Bytes io payload)) ;;
  match conn_Write io (Bytes io payload) with
  | (_, Some e) => ret (None, Some (OfLib e))
  | (n, None) =>
  log_if_set ("written " ++ fmt_d n ++ " bytes to RPC connection") ;;
  err <- resetTimeout io ;;
  match err with
  | Some e => ret (None, Some e)
  | None =>
  (* setup a reader: TCP -> openssl -> zlib -> rencode -> {objects} *)
  emit (EvNewReader h) ;;
  match zlib_NewReader io with
  | Some e => ret (None, Some (OfLib e))
  | None =>
  emit (EvDecode h) ;;
  match Decoder_Scan io with
  | inl e => ret (None, Some (OfLib e))
  | inr respList =>
  match Scan_int64_int64 respList with
  | inl e => ret (None, Some (OfLib e))
  | inr (mt, rid) =>
  if negb (rid =? serial c) then
    ret (None, Some (errors_New msg_mismatch))
  else
  (* shift first two elements *)
  match respList with
  | _ :: _ :: rest => Rpc_classify methodName mt rid rest
  | _ => panic "slice bounds out of range"
  end end end end end end end end end.

(** [Connect] performs connection to a Deluge daemon; [dial] is what
    [tls.Dial] answers. *)
Definition Connect (dial : lib_error + tls_Conn) (io : rpc_io)
  : M (option error) :=
  c <- get ;;
  let addr := Hostname (settings c) ++ ":" ++ fmt_d (Port (settings c)) in
  emit (EvDial addr) ;;
  match dial with
  | inl e => put (set_conn c None) ;; ret (Some (OfLib e))
  | inr h =>
  put (set_conn c (Some h)) ;;
  log_if_set ("connected to " ++ addr ++ newline) ;;
  (* perform login *)
  r <- Rpc io "daemon.login"
         [VString (Login (settings c)); VString (Password (settings c))] [] ;;
  match r with
  | (_, Some e) => ret (Some e)
  | (None, None) => panic nil_deref
  | (Some resp, None) =>
  if IsError resp then
    ret (Some (OfRPCError (mkRPCError (DelugeResponse_String resp))))
  else
  (* get class of logged-in user *)
  match Scan_int64 (returnValue resp) with
  | inl e => ret (Some (OfLib e))
  | inr id =>
  c' <- get ;;
  put (set_classID c' id) ;;
  log_if_set ("login successful as user " ++ Login (settings c) ++ newline) ;;
  ret None
  end end end.

(** [Options]: the entries of the Go map, in the order a [range] over it
    visits them. *)
Definition Options := list (string * value).

Definition mapToRencodeDictionary (m : Options) : Dictionary :=
  fold_left (fun dict kv => (dict ++ [(VString (fst kv), snd kv)])%list) m [].

Definition sliceToRencodeList (s : list string) : List_ :=
  fold_left (fun l v => (l ++ [VString v])%list) s [].

(** [AddTorrentMagnet] adds a torrent via magnet URI and returns the torrent
    hash. *)
Definition AddTorrentMagnet (io : rpc_io) (magnetURI : string)
    (options : Options) : M (string * option error) :=
  let args := [VString magnetURI; VDict (mapToRencodeDictionary options)] in
  r <- Rpc io "core.add_torrent_magnet" args [] ;;
  match r with
  | (_, Some e) => ret ("", Some e)
  | (None, None) => panic nil_deref
  | (Some resp, None) =>
  if IsError resp then
    ret ("", Some (OfRPCError (mkRPCError (DelugeResponse_String resp))))
  else
  (* returned hash may be nil if torrent was already added *)
  match Get (returnValue resp) 0 with
  | inl e => ret ("", Some (OfLib e))
  | inr VNil => ret ("", None)
  | inr (VBytes s) => ret (s, None)
  | inr _ => panic "interface conversion: interface {} is not []uint8"
  end end.

Definition RemoveTorrent (io : rpc_io) (torrentID : string)
    (removeData : bool) : M (bool * option error) :=
  let args := [VString torrentID; VBool removeData] in
  r <- Rpc io "core.remove_torrent" args [] ;;
  match r with
  | (_, Some e) => ret (false, Some e)
  | (None, None) => panic nil_deref
  | (Some resp, None) =>
  if IsError resp then
    ret (false, Some (OfRPCError (mkRPCError (DelugeResponse_String resp))))
  else
    ret (true, None)
  end.

Definition MoveStorage (io : rpc_io) (torrentIDs : list string)
    (dest : string) : M (option error) :=
  let args := [VList (sliceToRencodeList torrentIDs); VString dest] in
  r <- Rpc io "core.move_storage" args [] ;;
  match r with
  | (_, Some e) => ret (Some e)
  | (None, None) => panic nil_deref
  | (Some resp, None) =>
  if IsError resp then
    ret (Some (OfRPCError (mkRPCError (DelugeResponse_String resp))))
  else
    ret None
  end.

(** The calls a user of the package can make on a client, each with what the
    outside world answers during it. *)
Inductive call : Type :=
| CallConnect (dial : lib_error + tls_Conn) (io : rpc_io)
| CallClose (closed : option lib_error)
| CallRpc (io : rpc_io) (methodName : string) (args : List_)
    (kwargs : Dictionary)
| CallAddTorrentMagnet (io : rpc_io) (magnetURI : string) (options : Options)
| CallRemoveTorrent (io : rpc_io) (torrentID : string) (removeData : bool)
| CallMoveStorage (io : rpc_io) (torrentIDs : list string) (dest : string).

(** The client and the trace a computation leaves, whatever it returns; a
    caller may recover from a panic and go on using the client. *)
Definition effect {A} (m : M A) (c : Client) : Client * list event :=
  (snd (fst (m c)), snd (m c)).

Definition exec (k : call) : Client -> Client * list event :=
  match k with
  | CallConnect dial io => effect (Connect dial io)
  | CallClose closed => effect (Close closed)
  | CallRpc io m a kw => effect (Rpc io m a kw)
  | CallAddTorrentMagnet io uri opts => effect (AddTorrentMagnet io uri opts)
  | CallRemoveTorrent io id rd => effect (RemoveTorrent io id rd)
  | CallMoveStorage io ids dest => effect (MoveStorage io ids dest)
  end.

(** A sequence of calls on one client: the client it leaves and the whole
    trace. *)
Fixpoint run (ks : list call) (c : Client) : Client * list event :=
  match ks with
  | [] => (c, [])
  | k :: ks' =>
      match exec k c with
      | (c1, t1) =>
          match run ks' c1 with
          | (c2, t2) => (c2, (t1 ++ t2)%list)
          end
      end
  end.

End Methods.

(** ** Derived notions used by the statements *)

(** Lines 116-119 of [Rpc] as a function of the previous serial. *)
Definition next_serial (s : Z) : Z :=
  if wrap64 (s + 1) =? MaxInt64 then 1 else wrap64 (s + 1).

(** The serial in a request envelope. *)
Definition payload_serial (v : value) : option Z :=
  match v with
  | VList [VList (VInt64 s :: _)] => Some s
  | _ => None
  end.

(** The serials attached to the requests of a trace, in order, read off the
    payloads handed to the encoder. *)
Fixpoint trace_serials (t : list event) : list Z :=
  match t with
  | [] => []
  | EvEncode p :: t' =>
      match payload_serial p with
      | Some s => s :: trace_serials t'
      | None => trace_serials t'
      end
  | _ :: t' => trace_serials t'
  end.

(** A call that attaches a serial to a request moves the counter to it; a
    call that attaches none leaves the counter alone. *)
Definition serial_step (c c1 : Client) (t : list event) : Prop :=
  (trace_serials t = [] /\ serial c1 = serial c)
  \/ (trace_serials t = [next_serial (serial c)]
      /\ serial c1 = next_serial (serial c)).

(** The operations of a trace that touch the socket. *)
Definition on_socket (e : event) : bool :=
  match e with
  | EvWrite _ _ | EvSetDeadline _ _ | EvNewReader _ | EvDecode _
  | EvClose _ => true
  | _ => false
  end.

Definition socket_ops (t : list event) : list event := filter on_socket t.

Definition is_SetDeadline (e : event) : bool :=
  match e with EvSetDeadline _ _ => true | _ => false end.

Definition is_Write (e : event) : bool :=
  match e with EvWrite _ _ => true | _ => false end.

(** The events of [t] that come before its first write to the socket (all of
    [t] when it has none). *)
Fixpoint before_Write (t : list event) : list event :=
  match t with
  | [] => []
  | e :: t' => if is_Write e then [] else e :: before_Write t'
  end.

Definition prefix_of {A} (l full : list A) : Prop :=
  exists rest, full = (l ++ rest)%list.

(** The deadline in force on the socket at each write of a trace, in order:
    the argument of the latest [SetDeadline] before that write, [cur] when
    there is none in the trace ([None]: no deadline was ever set). *)
Fixpoint write_deadlines (cur : option Z) (t : list event)
  : list (option Z) :=
  match t with
  | [] => []
  | EvSetDeadline _ d :: t' => write_deadlines (Some d) t'
  | EvWrite _ _ :: t' => cur :: write_deadlines cur t'
  | _ :: t' => write_deadlines cur t'
  end.

(** The call got as far as [d.Scan(&respList)], and that scan delivered
    [respList]. *)
Definition decodes {R : Rencode} (io : rpc_io) (methodName : string)
    (args : List_) (kwargs : Dictionary) (c : Client) (respList : List_)
  : Prop :=
  (exists h, In (EvDecode h) (snd (Rpc io methodName args kwargs c)))
  /\ Decoder_Scan io = inr respList.

(** [respList] is an envelope [(message_type, request_id, payload...)]: it has
    its two leading elements and [respList.Scan(&mt, &resp.requestID)] reads
    [mt] and [rid] from it. *)
Definition envelope {R : Rencode} (respList : List_) (mt rid : Z)
    (payload : List_) : Prop :=
  Scan_int64_int64 respList = inr (mt, rid)
  /\ exists v1 v2, respList = v1 :: v2 :: payload.

(** The serial the call on [c] assigns to its request: the client's serial
    when the call is over. *)
Definition assigned_serial {R : Rencode} (io : rpc_io) (methodName : string)
    (args : List_) (kwargs : Dictionary) (c : Client) : Z :=
  serial (snd (fst (Rpc io methodName args kwargs c))).

(** ** A reference behaviour of rencode, for concrete runs

    [List.Scan] fails when the list has fewer elements than targets and
    otherwise converts element by element; integers of any width convert to
    [int64], byte strings and strings to [string], lists to [List]. *)
Module Ref.

Definition short : lib_error := LibError "not enough elements in list".
Definition mismatch : lib_error := LibError "cannot convert element".

Definition to_int64 (v : value) : lib_error + Z :=
  match v with
  | VInt8 z | VInt16 z | VInt32 z | VInt64 z => inr z
  | _ => inl mismatch
  end.

Definition to_string (v : value) : lib_error + string :=
  match v with
  | VBytes s | VString s => inr s
  | _ => inl mismatch
  end.

Definition to_List (v : value) : lib_error + List_ :=
  match v with
  | VList l => inr l
  | _ => inl mismatch
  end.

Definition scan1 {A} (conv : value -> lib_error + A) (l : List_)
  : lib_error + A :=
  match l with
  | v :: _ => conv v
  | [] => inl short
  end.

Definition scan_int64_int64 (l : List_) : lib_error + Z * Z :=
  match l with
  | v1 :: v2 :: _ =>
      match to_int64 v1, to_int64 v2 with
      | inr a, inr b => inr (a, b)
      | inl e, _ | _, inl e => inl e
      end
  | _ => inl short
  end.

Definition scan_string3 (l : List_) : lib_error + string * string * string :=
  match l with
  | v1 :: v2 :: v3 :: _ =>
      match to_string v1, to_string v2, to_string v3 with
      | inr a, inr b, inr c => inr (a, b, c)
      | inl e, _, _ | _, inl e, _ | _, _, inl e => inl e
      end
  | _ => inl short
  end.

Definition get (l : List_) (i : Z) : lib_error + value :=
  if i <? 0 then inl short
  else match nth_error l (Z.to_nat i) with
       | Some v => inr v
       | None => inl short
       end.

Definition rencode : Rencode :=
  {| Scan_int64 := scan1 to_int64;
     Scan_int64_int64 := scan_int64_int64;
     Scan_List := scan1 to_List;
     Scan_string3 := scan_string3;
     Get := get |}.

(** A daemon that answers the request with [respList] and a network on
    which nothing fails; the clock reads [now]. *)
Definition answer (now : Z) (respList : List_) : rpc_io :=
  {| Encode := fun _ => None;
     zlib_Close := None;
     Bytes := fun _ => [];
     conn_Write := fun b => (Z.of_nat (length b), None);
     time_Now := now;
     conn_SetDeadline := fun _ => None;
     zlib_NewReader := None;
     Decoder_Scan := inr respList |}.

(** A network whose write fails. *)
Definition broken_pipe : rpc_io :=
  {| Encode := fun _ => None;
     zlib_Close := None;
     Bytes := fun _ => [];
     conn_Write := fun _ => (0, Some (LibError "broken pipe"));
     time_Now := 0;
     conn_SetDeadline := fun _ => None;
     zlib_NewReader := None;
     Decoder_Scan := inl (LibError "unexpected EOF") |}.

Definition quiet : Settings := mkSettings "localhost" 58846 "user" "secret" None 0.

(** The daemon accepts the login and answers the class 10. *)
Definition login_ok : rpc_io := answer 0 [VInt8 1; VInt8 1; VInt8 10].

(** A client of [New] after a successful [Connect] on the socket 0; its
    login was the request 1, so its next request is 2. *)
Definition connected : Client :=
  fst (exec (R := rencode) (CallConnect (inr (Socket 0)) login_ok) (New quiet)).

(** The same client with its serial counter at [n]. *)
Definition connected_at (n : Z) : Client := set_serial connected n.

Definition ellipsis : string :=
  String (ascii_of_nat 226) (String (ascii_of_nat 128)
    (String (ascii_of_nat 166) EmptyString)).

(** The error envelope of the specification's example, answering request
    [rid]. *)
Definition value_error (rid : Z) : List_ :=
  [VInt8 2; VInt8 rid;
   VList [VBytes "ValueError"; VBytes "bad id"; VBytes ("trace" ++ ellipsis)]].

(** [Connect] at time 0, then a call 100 seconds later; the daemon answers
    both. *)
Definition idle_then_call : list call :=
  [ CallConnect (inr (Socket 0)) login_ok;
    CallRpc (answer (100 * Second) [VInt8 1; VInt8 2; VBytes "1.3.15"])
      "daemon.info" [] [] ].

End Ref.

(** * The remaining wrappers

    [MethodsList], [DaemonVersion], [AddTorrentURL], [GetTorrentStatus],
    [GetTorrentsStatus] and [GetSessionState].  A Go slice or map a wrapper
    returns is an [option]: [None] is Go's [nil], [Some []] the empty value
    made by a literal or by [make]. *)

(** ** Go maps with string keys

    The bindings of a [map[string]X]; [smap_set] is the assignment
    [m[k] = v], [smap_get] the lookup. *)
Definition smap (X : Type) : Type := list (string * X).

Fixpoint smap_get {X} (k : string) (m : smap X) : option X :=
  match m with
  | [] => None
  | (k', v) :: m' => if String.eqb k k' then Some v else smap_get k m'
  end.

Fixpoint smap_remove {X} (k : string) (m : smap X) : smap X :=
  match m with
  | [] => []
  | (k', v) :: m' =>
      if String.eqb k k' then smap_remove k m'
      else (k', v) :: smap_remove k m'
  end.

Definition smap_set {X} (k : string) (v : X) (m : smap X) : smap X :=
  (k, v) :: smap_remove k m.

Definition smap_keys {X} (m : smap X) : list string := map fst m.

(** ** More of the imported packages *)

(** The two other scans of [rencode.List] the wrappers perform. *)
Class RencodeMore : Type := {
  Scan_string : List_ -> lib_error + string;
  Scan_Dictionary : List_ -> lib_error + Dictionary
}.

(** [%#v] of [fmt], at the four types [GetTorrentsStatus] prints. *)
Class GoSyntax : Type := {
  GoString_filter : list (string * list string) -> string;
  GoString_List : List_ -> string;
  GoString_Dictionary : Dictionary -> string;
  GoString_result : smap (smap value) -> string
}.

(** The standard logger of package [log], the one [log.Printf] writes to. *)
Definition log_std : log_Logger := LoggerSink 0.

Definition not_bytes : string :=
  "interface conversion: interface {} is not []uint8".
Definition not_Dictionary : string :=
  "interface conversion: interface {} is not rencode.Dictionary".

(** ** Conversions of decoded values *)

(** [m.([]byte)]: the asserted byte string, or none when the assertion
    panics. *)
Definition assert_bytes (v : value) : option string :=
  match v with
  | VBytes s => Some s
  | _ => None
  end.

(** [for i, m := range l.Values() { result[i] = string(m.([]byte)) }];
    [None] when an assertion panics. *)
Fixpoint strings_of (vs : list value) : option (list string) :=
  match vs with
  | [] => Some []
  | v :: vs' =>
      match assert_bytes v with
      | None => None
      | Some s =>
          match strings_of vs' with
          | None => None
          | Some l => Some (s :: l)
          end
      end
  end.

(** [if v, ok := value.([]byte); ok { value = string(v) }] *)
Definition text_of (v : value) : value :=
  match v with
  | VBytes s => VString s
  | _ => v
  end.

(** The loop of [GetTorrentStatus] (and the inner loop of
    [GetTorrentsStatus]) over the entries of [statusDict] that are left,
    [result] being the map built so far; [None] when a key assertion
    panics. *)
Fixpoint status_loop (statusDict : Dictionary) (result : smap value)
  : option (smap value) :=
  match statusDict with
  | [] => Some result
  | (k, v) :: rest =>
      match assert_bytes k with
      | None => None
      | Some key => status_loop rest (smap_set key (text_of v) result)
      end
  end.

(** The outer loop of [GetTorrentsStatus]; [inl] is the panic of a failed
    assertion. *)
Fixpoint torrents_loop (resultDict : Dictionary) (result : smap (smap value))
  : string + smap (smap value) :=
  match resultDict with
  | [] => inr result
  | (k, v) :: rest =>
      match assert_bytes k with
      | None => inl not_bytes
      | Some tid =>
          match v with
          | VDict statusDict =>
              match status_loop statusDict [] with
              | None => inl not_bytes
              | Some statusMap =>
                  torrents_loop rest (smap_set tid statusMap result)
              end
          | _ => inl not_Dictionary
          end
      end
  end.

Section MoreMethods.
Context {R : Rencode} {R2 : RencodeMore} {F : GoSyntax}.

(** [MethodsList] returns a list of available methods on server. *)
Definition MethodsList (io : rpc_io)
  : M (option (list string) * option error) :=
  r <- Rpc io "daemon.get_method_list" [] [] ;;
  match r with
  | (_, Some e) => ret (Some [], Some e)
  | (None, None) => panic nil_deref
  | (Some resp, None) =>
  if IsError resp then
    ret (Some [], Some (OfRPCError (mkRPCError (DelugeResponse_String resp))))
  else
  match Scan_List (returnValue resp) with
  | inl e => ret (Some [], Some (OfLib e))
  | inr methodsList =>
  match strings_of methodsList with
  | None => panic not_bytes
  | Some result => ret (Some result, None)
  end end end.

(** [DaemonVersion] returns the running daemon version. *)
Definition DaemonVersion (io : rpc_io) : M (string * option error) :=
  r <- Rpc io "daemon.info" [] [] ;;
  match r with
  | (_, Some e) => ret ("", Some e)
  | (None, None) => panic nil_deref
  | (Some resp, None) =>
  if IsError resp then
    ret ("", Some (OfRPCError (mkRPCError (DelugeResponse_String resp))))
  else
  match Scan_string (returnValue resp) with
  | inl e => ret ("", Some (OfLib e))
  | inr info => ret (info, None)
  end end.

(** [AddTorrentURL] adds a torrent via a URL and returns the torrent hash. *)
Definition AddTorrentURL (io : rpc_io) (url : string) (options : Options)
  : M (string * option error) :=
  let args := [VString url; VDict (mapToRencodeDictionary options)] in
  r <- Rpc io "core.add_torrent_url" args [] ;;
  match r with
  | (_, Some e) => ret ("", Some e)
  | (None, None) => panic nil_deref
  | (Some resp, None) =>
  if IsError resp then
    ret ("", Some (OfRPCError (mkRPCError (DelugeResponse_String resp))))
  else
  (* returned hash may be nil if torrent was already added *)
  match Get (returnValue resp) 0 with
  | inl e => ret ("", Some (OfLib e))
  | inr VNil => ret ("", None)
  | inr (VBytes s) => ret (s, None)
  | inr _ => panic not_bytes
  end end.

Definition GetTorrentStatus (io : rpc_io) (torrentID : string)
    (keys : list string) (diff : bool)
  : M (option (smap value) * option error) :=
  let args :=
    [VString torrentID; VList (sliceToRencodeList keys); VBool diff] in
  r <- Rpc io "core.get_torrent_status" args [] ;;
  match r with
  | (_, Some e) => ret (None, Some e)
  | (None, None) => panic nil_deref
  | (Some resp, None) =>
  if IsError resp then
    ret (None, Some (OfRPCError (mkRPCError (DelugeResponse_String resp))))
  else
  match Scan_Dictionary (returnValue resp) with
  | inl e => ret (None, Some (OfLib e))
  | inr statusDict =>
  match status_loop statusDict [] with
  | None => panic not_bytes
  | Some result => ret (Some result, None)
  end end end.

(** The filter of [GetTorrentsStatus] is a Go map: its entries in the order
    the [range] visits them. *)
Definition filter_to_Dictionary (filter : list (string * list string))
  : Dictionary :=
  fold_left
    (fun dict kv =>
       (dict ++ [(VString (fst kv), VList (sliceToRencodeList (snd kv)))])%list)
    filter [].

Definition GetTorrentsStatus (io : rpc_io)
    (filter : list (string * list string)) (keys : list string) (diff : bool)
  : M (option (smap (smap value)) * option error) :=
  emit (EvLog log_std ("GetTorrentsStatus filter: " ++ GoString_filter filter
                       ++ " " ++ newline)) ;;
  let filterDict := filter_to_Dictionary filter in
  let args :=
    [VDict filterDict; VList (sliceToRencodeList keys); VBool diff] in
  emit (EvLog log_std ("GetTorrentsStatus args: " ++ GoString_List args
                       ++ " " ++ newline)) ;;
  r <- Rpc io "core.get_torrents_status" args [] ;;
  match r with
  | (_, Some e) => ret (None, Some e)
  | (None, None) => panic nil_deref
  | (Some resp, None) =>
  if IsError resp then
    ret (None, Some (OfRPCError (mkRPCError (DelugeResponse_String resp))))
  else
  match Scan_Dictionary (returnValue resp) with
  | inl e => ret (None, Some (OfLib e))
  | inr resultDict =>
  emit (EvLog log_std ("GetTorrentsStatus resultDict: "
                       ++ GoString_Dictionary resultDict ++ " " ++ newline)) ;;
  match torrents_loop resultDict [] with
  | inl msg => panic msg
  | inr result =>
  emit (EvLog log_std ("GetTorrentsStatus result: " ++ GoString_result result
                       ++ " " ++ newline)) ;;
  ret (Some result, None)
  end end end.

Definition GetSessionState (io : rpc_io)
  : M (option (list string) * option error) :=
  r <- Rpc io "core.get_session_state" [] [] ;;
  match r with
  | (_, Some e) => ret (None, Some e)
  | (None, None) => panic nil_deref
  | (Some resp, None) =>
  if IsError resp then
    ret (None, Some (OfRPCError (mkRPCError (DelugeResponse_String resp))))
  else
  match Scan_List (returnValue resp) with
  | inl e => ret (Some [], Some (OfLib e))
  | inr idList =>
  match strings_of idList with
  | None => panic not_bytes
  | Some result => ret (Some result, None)
  end end end.

End MoreMethods.

(** ** Further notions used by the statements *)

Definition is_Log (e : event) : bool :=
  match e with EvLog _ _ => true | _ => false end.

(** A trace without its log lines. *)
Definition unlogged (t : list event) : list event :=
  filter (fun e => negb (is_Log e)) t.

Definition set_Logger (c : Client) (l : option log_Logger) : Client :=
  mkClient
    (mkSettings (Hostname (settings c)) (Port (settings c))
       (Login (settings c)) (Password (settings c)) l
       (ReadWriteTimeout (settings c)))
    (conn c) (serial c) (classID c).

(** What [log_if_set line] adds to the trace on the client [c]. *)
Definition log_events (c : Client) (line : string) : list event :=
  match Logger (settings c) with
  | Some sink => [EvLog sink line]
  | None => []
  end.

(** The address [Connect] dials and the arguments of its login call. *)
Definition dial_addr (c : Client) : string :=
  Hostname (settings c) ++ ":" ++ fmt_d (Port (settings c)).

Definition login_args (c : Client) : List_ :=
  [VString (Login (settings c)); VString (Password (settings c))].

(** The payloads handed to the encoder over a trace. *)
Fixpoint trace_payloads (t : list event) : list value :=
  match t with
  | [] => []
  | EvEncode p :: t' => p :: trace_payloads t'
  | _ :: t' => trace_payloads t'
  end.

Definition is_Close (e : event) : bool :=
  match e with EvClose _ => true | _ => false end.

(** The value the last entry of [d] under the byte-string key [k] carries. *)
Fixpoint dict_last (k : string) (d : Dictionary) : option value :=
  match d with
  | [] => None
  | (k', v) :: d' =>
      match dict_last k d' with
      | Some v' => Some v'
      | None =>
          match assert_bytes k' with
          | Some s => if String.eqb k s then Some v else None
          | None => None
          end
      end
  end.

Definition all_bytes (vs : list value) : bool :=
  forallb (fun v => match assert_bytes v with Some _ => true | None => false end)
    vs.

(** A dictionary the outer loop of [GetTorrentsStatus] converts without a
    panic: every key a byte string, every value a dictionary whose keys are
    byte strings. *)
Definition convertible (resultDict : Dictionary) : bool :=
  forallb (fun kv =>
             match assert_bytes (fst kv), snd kv with
             | Some _, VDict sd => all_bytes (map fst sd)
             | _, _ => false
             end) resultDict.

(** [w] makes one request, the call of [methodName] with [args] and no
    keyword arguments under the client's next serial, and leaves the client
    as that call of [Rpc] leaves it. *)
Definition sends_once {A} (w : M A) (methodName : string) (args : List_)
  : Prop :=
  forall c,
    snd (fst (w c)) = set_serial c (next_serial (serial c))
    /\ trace_payloads (snd (w c))
       = [request_payload (next_serial (serial c)) methodName args []].

(** The message of an [RPCError] made from an error response. *)
Definition remote_message (r : RPCError) : Prop :=
  exists et em tb,
    remoteMessage r
    = "RPC error " ++ et ++ "('" ++ em ++ "')" ++ newline ++ tb.

(** ** A reference behaviour of the other scans, for concrete runs *)
Module RefMore.

Definition to_Dictionary (v : value) : lib_error + Dictionary :=
  match v with
  | VDict d => inr d
  | _ => inl Ref.mismatch
  end.

Definition rencode_more : RencodeMore :=
  {| Scan_string := Ref.scan1 Ref.to_string;
     Scan_Dictionary := Ref.scan1 to_Dictionary |}.

(** A printer that shows sizes only. *)
Definition sizes : GoSyntax :=
  {| GoString_filter := fun f => fmt_d (Z.of_nat (length f));
     GoString_List := fun l => fmt_d (Z.of_nat (length l));
     GoString_Dictionary := fun d => fmt_d (Z.of_nat (length d));
     GoString_result := fun r => fmt_d (Z.of_nat (length r)) |}.

(** An encoder that rejects every request. *)
Definition unencodable : rpc_io :=
  {| Encode := fun _ => Some (LibError "rencode: unsupported type");
     zlib_Close := None;
     Bytes := fun _ => [];
     conn_Write := fun b => (Z.of_nat (length b), None);
     time_Now := 0;
     conn_SetDeadline := fun _ => None;
     zlib_NewReader := None;
     Decoder_Scan := inl (LibError "unexpected EOF") |}.

(** The status dictionary of one torrent, as the daemon sends it. *)
Definition status : Dictionary :=
  [ (VBytes "name", VBytes "debian.iso");
    (VBytes "progress", VFloat32 1120403456);
    (VBytes "trackers", VList [VBytes "udp://tracker"]) ].

End RefMore.

(** * Properties *)

Arguments wrap64 : simpl never.
Arguments MaxInt64 : simpl never.

Ltac unfold_M :=
  unfold Rpc, Rpc_classify, Rpc_done, resetTimeout, Close, log_if_set,
    bind, get, put, emit, ret, panic, set_serial, set_conn, of_lib in *.

(** Case analysis on the innermost scrutinee the goal is stuck on. *)
Ltac break_match :=
  match goal with
  | |- context [match ?x with _ => _ end] =>
      lazymatch x with
      | context [match _ with _ => _ end] => fail
      | _ => destruct x eqn:?
      end
  end.

Ltac run_Rpc := unfold_M; simpl; repeat (break_match; simpl in * ).

(** ** Arithmetic of the serial counter *)

Lemma wrap64_small (z : Z) : in_int64 z -> wrap64 z = z.
Proof.
  unfold in_int64, wrap64, MinInt64, MaxInt64. intros H.
  rewrite Z.mod_small by lia. lia.
Qed.

Lemma next_serial_step (s : Z) :
  0 <= s < MaxInt64 ->
  next_serial s = if s + 1 =? MaxInt64 then 1 else s + 1.
Proof.
  intros H. unfold next_serial.
  rewrite wrap64_small; [reflexivity|].
  unfold in_int64, MinInt64, MaxInt64 in *. lia.
Qed.

Lemma next_serial_mod (k : Z) :
  0 <= k ->
  next_serial (k mod (MaxInt64 - 1) + 1) = (k + 1) mod (MaxInt64 - 1) + 1.
Proof.
  intros Hk.
  assert (HP : 2 < MaxInt64 - 1) by (unfold MaxInt64; lia).
  pose proof (Z.mod_pos_bound k (MaxInt64 - 1) ltac:(lia)) as Hb.
  rewrite (Z.add_mod k 1) by lia.
  rewrite (Z.mod_small 1) by lia.
  remember (k mod (MaxInt64 - 1)) as x eqn:Hx. clear Hx.
  rewrite next_serial_step by lia.
  destruct (x + 1 + 1 =? MaxInt64) eqn:E.
  - apply Z.eqb_eq in E.
    replace (x + 1) with (MaxInt64 - 1) by lia.
    rewrite Z.mod_same by lia. reflexivity.
  - apply Z.eqb_neq in E. rewrite Z.mod_small by lia. reflexivity.
Qed.

Lemma next_serial_zero : next_serial 0 = 1.
Proof. reflexivity. Qed.

Section Properties.
Context {R : Rencode}.

(** ** What every call of [Rpc] does to the client *)

Lemma Rpc_serial io m a kw c :
  serial (snd (fst (Rpc io m a kw c))) = next_serial (serial c).
Proof. unfold next_serial. run_Rpc; reflexivity. Qed.

Lemma Rpc_trace_serials io m a kw c :
  trace_serials (snd (Rpc io m a kw c)) = [next_serial (serial c)].
Proof. unfold next_serial. run_Rpc; reflexivity. Qed.

Lemma Rpc_conn io m a kw c :
  conn (snd (fst (Rpc io m a kw c))) = conn c.
Proof. run_Rpc; reflexivity. Qed.

Lemma trace_serials_app (t1 t2 : list event) :
  trace_serials (t1 ++ t2) = (trace_serials t1 ++ trace_serials t2)%list.
Proof.
  induction t1 as [|e t1 IH]; simpl; [reflexivity|].
  destruct e; simpl; try exact IH.
  destruct (payload_serial payload); simpl; rewrite IH; reflexivity.
Qed.

Lemma Rpc_serial_step io m a kw c :
  serial_step c (snd (fst (Rpc io m a kw c))) (snd (Rpc io m a kw c)).
Proof. right. split; [apply Rpc_trace_serials | apply Rpc_serial]. Qed.

(** Inside a method that calls [Rpc] once: bring in what that call did to
    the counter, and compare. *)
Ltac by_Rpc_serial_step :=
  match goal with
  | H : Rpc ?io' ?m' ?a' ?kw' ?c' = _ |- _ =>
      let Hk := fresh "Hk" in
      pose proof (Rpc_serial_step io' m' a' kw' c') as Hk;
      rewrite H in Hk; unfold serial_step in *; simpl in *;
      repeat rewrite trace_serials_app; simpl;
      repeat rewrite app_nil_r; exact Hk
  end.

Lemma exec_serial_step (k : call) (c : Client) :
  serial_step c (fst (exec k c)) (snd (exec k c)).
Proof.
  destruct k as [dial io | closed | io m a kw | io uri opts | io id rd
                | io ids dest]; unfold exec, effect.
  - unfold Connect, log_if_set, bind, get, put, emit, ret, panic, set_conn,
      set_classID.
    simpl.
    repeat (break_match; simpl in * );
      first [ left; split; reflexivity | by_Rpc_serial_step ].
  - left. unfold Close, bind, get, put, emit, ret, set_conn.
    destruct (conn c); simpl; auto.
  - apply Rpc_serial_step.
  - unfold AddTorrentMagnet, bind, ret, panic. simpl.
    repeat (break_match; simpl in * ); by_Rpc_serial_step.
  - unfold RemoveTorrent, bind, ret, panic. simpl.
    repeat (break_match; simpl in * ); by_Rpc_serial_step.
  - unfold MoveStorage, bind, ret, panic. simpl.
    repeat (break_match; simpl in * ); by_Rpc_serial_step.
Qed.

Lemma run_serials_closed_form (ks : list call) :
  forall (c : Client) (k : Z) (i : nat) (p : Z),
    0 <= k ->
    next_serial (serial c) = k mod (MaxInt64 - 1) + 1 ->
    nth_error (trace_serials (snd (run ks c))) i = Some p ->
    p = (k + Z.of_nat i) mod (MaxInt64 - 1) + 1.
Proof.
  induction ks as [|call ks IH]; intros c k i p Hk Hc Hi.
  - simpl in Hi. destruct i; discriminate.
  - simpl in Hi.
    pose proof (exec_serial_step call c) as Hs.
    destruct (exec call c) as [c1 t1]. simpl in Hs.
    specialize (IH c1).
    destruct (run ks c1) as [c2 t2]. simpl in *.
    rewrite trace_serials_app in Hi.
    destruct Hs as [[Ht Hc1] | [Ht Hc1]]; rewrite Ht in Hi; simpl in Hi.
    + apply (IH k i p Hk); [rewrite Hc1; exact Hc | exact Hi].
    + destruct i as [|i]; simpl in Hi.
      * rewrite Z.add_0_r. congruence.
      * replace (k + Z.of_nat (S i)) with (k + 1 + Z.of_nat i) by lia.
        apply (IH (k + 1) i p); [lia | | exact Hi].
        rewrite Hc1, Hc. apply next_serial_mod. exact Hk.
Qed.

Lemma run_serials_fresh (s : Settings) (ks : list call) (i : nat) (p : Z) :
  nth_error (trace_serials (snd (run ks (New s)))) i = Some p ->
  p = Z.of_nat i mod (MaxInt64 - 1) + 1.
Proof.
  intros H.
  apply (run_serials_closed_form ks (New s) 0 i p) in H;
    [ rewrite Z.add_0_l in H; exact H | lia | reflexivity ].
Qed.

(** C3. Take a client made by [New] and any sequence of calls on it
    ([Connect], [Close], [Rpc] and the wrappers, whatever the outside world
    answers).  Every call of [Rpc] attaches the client's new serial to its
    request, and the [i]-th request of the sequence (counting from 0)
    carries the serial [i mod (MaxInt64 - 1) + 1].  Hence each serial is the
    previous one plus one, except that an incremented value equal to
    [MaxInt64] is replaced by 1; no serial is 0; and two requests less than
    [MaxInt64 - 1] apart never carry the same serial. *)
Theorem C3_serial_sequence (s : Settings) (ks : list call) :
  let serials := trace_serials (snd (run ks (New s))) in
  (forall io m a kw c,
     trace_serials (snd (Rpc io m a kw c)) = [assigned_serial io m a kw c]
     /\ assigned_serial io m a kw c
        = if wrap64 (serial c + 1) =? MaxInt64 then 1
          else wrap64 (serial c + 1))
  /\ (forall i p,
        nth_error serials i = Some p ->
        p = Z.of_nat i mod (MaxInt64 - 1) + 1)
  /\ (forall i p q,
        nth_error serials i = Some p ->
        nth_error serials (S i) = Some q ->
        q = if p + 1 =? MaxInt64 then 1 else p + 1)
  /\ (forall i p, nth_error serials i = Some p -> 0 < p < MaxInt64)
  /\ (forall i j p q,
        (i < j)%nat -> Z.of_nat j - Z.of_nat i < MaxInt64 - 1 ->
        nth_error serials i = Some p ->
        nth_error serials j = Some q ->
        p <> q).
Proof.
  assert (HP : 2 < MaxInt64 - 1) by (unfold MaxInt64; lia).
  cbv zeta. split; [|split; [|split; [|split]]].
  - intros io m a kw c. unfold assigned_serial.
    rewrite Rpc_trace_serials, Rpc_serial. split; reflexivity.
  - intros i p Hp. apply (run_serials_fresh _ _ _ _ Hp).
  - intros i p q Hp Hq.
    apply run_serials_fresh in Hp. apply run_serials_fresh in Hq.
    subst p q.
    rewrite <- next_serial_step.
    + replace (Z.of_nat (S i)) with (Z.of_nat i + 1) by lia.
      symmetry. apply next_serial_mod. lia.
    + pose proof (Z.mod_pos_bound (Z.of_nat i) (MaxInt64 - 1) ltac:(lia)).
      lia.
  - intros i p Hp. apply run_serials_fresh in Hp. subst p.
    pose proof (Z.mod_pos_bound (Z.of_nat i) (MaxInt64 - 1) ltac:(lia)).
    lia.
  - intros i j p q Hij Hd Hp Hq Heq.
    apply run_serials_fresh in Hp. apply run_serials_fresh in Hq.
    assert (E : Z.of_nat i mod (MaxInt64 - 1) = Z.of_nat j mod (MaxInt64 - 1))
      by lia.
    assert (D : (Z.of_nat j - Z.of_nat i) mod (MaxInt64 - 1) = 0).
    { rewrite Zminus_mod, E, Z.sub_diag. apply Z.mod_0_l. lia. }
    rewrite Z.mod_small in D by lia. lia.
Qed.

(** ** Close *)

(** C9. Two calls of [Close] on a client holding a socket: the first closes
    that socket (one [EvClose]) and returns what the socket's [Close]
    returned; the second makes no call at all, returns [ErrAlreadyClosed] and
    does not panic. *)
Theorem C9_double_close (c : Client) (h : tls_Conn)
    (closed1 closed2 : option lib_error) :
  conn c = Some h ->
  exists c1 c2,
    Close closed1 c = (Returns (option_map OfLib closed1), c1, [EvClose h])
    /\ Close closed2 c1 = (Returns (Some ErrAlreadyClosed), c2, []).
Proof.
  intros Hc. unfold Close, bind, get, put, emit, ret, set_conn, of_lib.
  rewrite Hc. simpl. do 2 eexists. split; reflexivity.
Qed.

(** C10. [Close] returns [ErrAlreadyClosed] exactly when the connection
    field is nil.  It is nil in a client fresh from [New], and after every
    call of [Close], whatever the socket's own [Close] returned. *)
Theorem C10_already_closed_iff_nil :
  (forall c closed,
     fst (fst (Close closed c)) = Returns (Some ErrAlreadyClosed)
     <-> conn c = None)
  /\ (forall s closed,
        fst (fst (Close closed (New s))) = Returns (Some ErrAlreadyClosed))
  /\ (forall c closed closed',
        conn (snd (fst (Close closed c))) = None
        /\ fst (fst (Close closed' (snd (fst (Close closed c)))))
           = Returns (Some ErrAlreadyClosed)).
Proof.
  unfold Close, bind, get, put, emit, ret, set_conn, of_lib.
  repeat split.
  - destruct (conn c); simpl; [|reflexivity].
    destruct closed; simpl; intros H; discriminate.
  - intros H. rewrite H. reflexivity.
  - destruct (conn c) eqn:E; simpl; [reflexivity | exact E].
  - destruct (conn c) eqn:E; simpl; [reflexivity | rewrite E; reflexivity].
Qed.

(** ** The call after a decoded response *)

Ltac unfold_send :=
  unfold Rpc, resetTimeout, log_if_set,
    bind, get, put, emit, ret, panic, set_serial, set_conn, of_lib in *.

(** Once the decoder has delivered [respList], the outcome of the call is
    decided by the header scan, the correlation check, the shift and the
    classification. *)
Lemma Rpc_after_decode io m a kw c respList :
  decodes io m a kw c respList ->
  fst (fst (Rpc io m a kw c)) =
    match Scan_int64_int64 respList with
    | inl e => Returns (None, Some (OfLib e))
    | inr (mt, rid) =>
        if negb (rid =? next_serial (serial c)) then
          Returns (None, Some (errors_New msg_mismatch))
        else
          match respList with
          | _ :: _ :: rest =>
              fst (fst (Rpc_classify m mt rid rest
                          (set_serial c (next_serial (serial c)))))
          | _ => Panics "slice bounds out of range"
          end
    end.
Proof.
  intros [[h Hin] Hd]. revert Hin.
  destruct io as [enc zc by_ wr now sd nr ds]. simpl in Hd. subst ds.
  unfold next_serial. unfold_send. simpl.
  repeat (break_match; simpl in * );
    try reflexivity;
    try (intros Hin; exfalso; repeat destruct Hin as [Hin | Hin];
         solve [discriminate | contradiction]).
Qed.

Lemma Rpc_classify_result m mt rid rest c :
  fst (fst (Rpc_classify m mt rid rest c)) =
    if mt =? rpcResponse then
      Returns (Some (mkDelugeResponse mt rid rest "" "" "" "" []), None)
    else if mt =? rpcError then
      match Scan_List rest with
      | inl e => Returns (None, Some (OfLib e))
      | inr errList =>
          match Scan_string3 errList with
          | inl e => Returns (None, Some (OfLib e))
          | inr (et, em, tb) =>
              Returns (Some (mkDelugeResponse mt rid [] et em tb "" []), None)
          end
      end
    else if mt =? rpcEvent then Returns (None, Some (errors_New msg_event))
    else Returns (None, Some (errors_New msg_unknown)).
Proof.
  unfold Rpc_classify, Rpc_done, log_if_set, bind, get, emit, ret.
  repeat (break_match; simpl in * ); reflexivity.
Qed.

(** C2. When the response envelope was decoded and its echoed request id is
    not the serial the call assigned, [Rpc] returns a nil response and the
    correlation error; the rest of the envelope plays no part. *)
Theorem C2_serial_mismatch io m a kw c respList mt rid :
  decodes io m a kw c respList ->
  Scan_int64_int64 respList = inr (mt, rid) ->
  rid <> assigned_serial io m a kw c ->
  fst (fst (Rpc io m a kw c))
  = Returns (None, Some (errors_New msg_mismatch)).
Proof.
  intros Hd Hs Hne. unfold assigned_serial in Hne.
  rewrite Rpc_serial in Hne.
  rewrite (Rpc_after_decode _ _ _ _ _ _ Hd), Hs.
  apply Z.eqb_neq in Hne. rewrite Hne. reflexivity.
Qed.

(** C4, as the code has it.  For a decoded envelope whose message type is
    neither 1 nor 2, [Rpc] returns a nil response and an error.  When the
    echoed request id is the serial just assigned, the error is the
    unsupported-event failure for type 3, whatever the payload, and the
    unknown-message-type failure for every other type; when it is not, the
    error is the correlation error. *)
Theorem C4_event_and_unknown io m a kw c respList mt rid payload :
  decodes io m a kw c respList ->
  envelope respList mt rid payload ->
  mt <> rpcResponse -> mt <> rpcError ->
  (exists e, fst (fst (Rpc io m a kw c)) = Returns (None, Some e))
  /\ (rid = assigned_serial io m a kw c ->
      (mt = rpcEvent ->
       fst (fst (Rpc io m a kw c)) = Returns (None, Some (errors_New msg_event)))
      /\ (mt <> rpcEvent ->
          fst (fst (Rpc io m a kw c))
          = Returns (None, Some (errors_New msg_unknown))))
  /\ (rid <> assigned_serial io m a kw c ->
      fst (fst (Rpc io m a kw c))
      = Returns (None, Some (errors_New msg_mismatch))).
Proof.
  intros Hd [Hs (v1 & v2 & Hl)] H1 H2.
  unfold assigned_serial. rewrite Rpc_serial.
  rewrite (Rpc_after_decode _ _ _ _ _ _ Hd), Hs. subst respList.
  rewrite Rpc_classify_result.
  apply Z.eqb_neq in H1, H2. rewrite H1, H2.
  destruct (rid =? next_serial (serial c)) eqn:E; simpl.
  - apply Z.eqb_eq in E.
    destruct (mt =? rpcEvent) eqn:E3;
      [apply Z.eqb_eq in E3 | apply Z.eqb_neq in E3].
    + split; [eexists; reflexivity|].
      split; [intros _; split; [reflexivity | congruence] | congruence].
    + split; [eexists; reflexivity|].
      split; [intros _; split; [congruence | reflexivity] | congruence].
  - apply Z.eqb_neq in E.
    split; [eexists; reflexivity|].
    split; [congruence | reflexivity].
Qed.

(** C5. [Rpc] never returns a response together with an error: a non-nil
    error comes with a nil response, and a non-nil response with a nil
    error.  A remote failure, that is a decoded error envelope that echoes
    the serial and whose payload scans, is returned as a non-nil response on
    which [IsError] is true, with a nil error. *)
Theorem C5_no_partial_result io m a kw c :
  (forall resp e,
     fst (fst (Rpc io m a kw c)) = Returns (resp, Some e) -> resp = None)
  /\ (forall resp err,
        fst (fst (Rpc io m a kw c)) = Returns (Some resp, err) -> err = None)
  /\ (forall respList rid payload errList et em tb,
        decodes io m a kw c respList ->
        envelope respList rpcError rid payload ->
        rid = assigned_serial io m a kw c ->
        Scan_List payload = inr errList ->
        Scan_string3 errList = inr (et, em, tb) ->
        exists resp,
          fst (fst (Rpc io m a kw c)) = Returns (Some resp, None)
          /\ IsError resp = true).
Proof.
  split; [|split].
  - intros resp e. unfold_send. unfold Rpc_classify, Rpc_done. unfold_send.
    simpl. repeat (break_match; simpl in * ); congruence.
  - intros resp e. unfold_send. unfold Rpc_classify, Rpc_done. unfold_send.
    simpl. repeat (break_match; simpl in * ); congruence.
  - intros respList rid payload errList et em tb Hd [Hs (v1 & v2 & Hl)] Hr HL H3.
    unfold assigned_serial in Hr. rewrite Rpc_serial in Hr.
    rewrite (Rpc_after_decode _ _ _ _ _ _ Hd), Hs. subst respList.
    rewrite Rpc_classify_result, HL, H3.
    subst rid. rewrite Z.eqb_refl. simpl.
    eexists. split; reflexivity.
Qed.

(** C1, as the code has it.  Take a decoded error envelope whose payload
    scans to [(et, em, tb)].  Whenever the call surfaces a response, [IsError]
    is true on it and the [RPCError] the wrappers make of it carries the
    message ["RPC error " ++ et ++ "('" ++ em ++ "')" ++ newline ++ tb]: the
    composite of the three fields behind the fixed prefix ["RPC error "].
    The call does surface a response when the envelope echoes the serial. *)
Theorem C1_remote_error_message io m a kw c respList rid payload errList
    et em tb :
  decodes io m a kw c respList ->
  envelope respList rpcError rid payload ->
  Scan_List payload = inr errList ->
  Scan_string3 errList = inr (et, em, tb) ->
  (forall resp,
     fst (fst (Rpc io m a kw c)) = Returns (Some resp, None) ->
     IsError resp = true
     /\ RPCError_Error (mkRPCError (DelugeResponse_String resp))
        = "RPC error " ++ et ++ "('" ++ em ++ "')" ++ newline ++ tb)
  /\ (rid = assigned_serial io m a kw c ->
      exists resp, fst (fst (Rpc io m a kw c)) = Returns (Some resp, None)).
Proof.
  intros Hd [Hs (v1 & v2 & Hl)] HL H3.
  unfold assigned_serial. rewrite Rpc_serial.
  rewrite (Rpc_after_decode _ _ _ _ _ _ Hd), Hs. subst respList.
  rewrite Rpc_classify_result, HL, H3.
  destruct (rid =? next_serial (serial c)) eqn:E; simpl.
  - split.
    + intros resp H. injection H as <-. split; reflexivity.
    + intros _. eexists. reflexivity.
  - split.
    + intros resp H. discriminate H.
    + intros ->. rewrite Z.eqb_refl in E. discriminate E.
Qed.

(** The socket operations of a call are, in this order, an initial part of:
    write the encoded request; set the deadline to now plus the configured
    timeout; open the reader; decode.  So the deadline is set after the
    request has been written, and nothing sets a deadline before the write. *)
Lemma Rpc_socket_order io m a kw c :
  let t := snd (Rpc io m a kw c) in
  (forall h, conn c = Some h ->
     prefix_of (socket_ops t)
       [EvWrite h (Bytes io (request_payload (next_serial (serial c)) m a kw));
        EvSetDeadline h (time_Now io + ReadWriteTimeout (settings c));
        EvNewReader h; EvDecode h])
  /\ (conn c = None -> socket_ops t = [])
  /\ existsb is_SetDeadline (before_Write t) = false.
Proof.
  cbv zeta. unfold prefix_of, socket_ops, next_serial.
  unfold_send. unfold Rpc_classify, Rpc_done. unfold_send. simpl.
  repeat (break_match; simpl in * );
    (split; [intros h' Hh'; inversion Hh'; subst; eexists; simpl; reflexivity
            | split; [intros; try reflexivity; discriminate | reflexivity]]).
Qed.

(** The write of a call is made under the deadline the call found on the
    socket, never under one of its own. *)
Lemma Rpc_write_under_inherited_deadline io m a kw c cur :
  write_deadlines cur (snd (Rpc io m a kw c)) = []
  \/ write_deadlines cur (snd (Rpc io m a kw c)) = [cur].
Proof.
  unfold_send. unfold Rpc_classify, Rpc_done. unfold_send. simpl.
  repeat (break_match; simpl in * ); auto.
Qed.

(** What the wrappers make of a response on which [IsError] is true. *)
Lemma RemoveTorrent_remote_error io id rd c resp c' t :
  Rpc io "core.remove_torrent" [VString id; VBool rd] [] c
  = (Returns (Some resp, None), c', t) ->
  IsError resp = true ->
  RemoveTorrent io id rd c
  = (Returns (false, Some (OfRPCError (mkRPCError (DelugeResponse_String resp)))),
     c', t).
Proof.
  intros H E. unfold RemoveTorrent, bind, ret. rewrite H, E.
  rewrite app_nil_r. reflexivity.
Qed.

Lemma AddTorrentMagnet_remote_error io uri opts c resp c' t :
  Rpc io "core.add_torrent_magnet"
    [VString uri; VDict (mapToRencodeDictionary opts)] [] c
  = (Returns (Some resp, None), c', t) ->
  IsError resp = true ->
  AddTorrentMagnet io uri opts c
  = (Returns ("", Some (OfRPCError (mkRPCError (DelugeResponse_String resp)))),
     c', t).
Proof.
  intros H E. unfold AddTorrentMagnet, bind, ret. rewrite H, E.
  rewrite app_nil_r. reflexivity.
Qed.

Lemma MoveStorage_remote_error io ids dest c resp c' t :
  Rpc io "core.move_storage"
    [VList (sliceToRencodeList ids); VString dest] [] c
  = (Returns (Some resp, None), c', t) ->
  IsError resp = true ->
  MoveStorage io ids dest c
  = (Returns (Some (OfRPCError (mkRPCError (DelugeResponse_String resp)))),
     c', t).
Proof.
  intros H E. unfold MoveStorage, bind, ret. rewrite H, E.
  rewrite app_nil_r. reflexivity.
Qed.

(** C6, as the code has it.  When the call of [Rpc] inside [RemoveTorrent]
    returns a response that is not an error, [RemoveTorrent] returns [true]
    and a nil error, whatever the response's return values are. *)
Theorem C6_remove_returns_true io id rd c resp c' t :
  Rpc io "core.remove_torrent" [VString id; VBool rd] [] c
  = (Returns (Some resp, None), c', t) ->
  IsError resp = false ->
  RemoveTorrent io id rd c = (Returns (true, None), c', t).
Proof.
  intros H E. unfold RemoveTorrent, bind, ret. rewrite H, E.
  rewrite app_nil_r. reflexivity.
Qed.

(** C8. When the call of [Rpc] inside [AddTorrentMagnet] returns a response
    that is not an error and whose first return value is nil,
    [AddTorrentMagnet] returns the empty string and a nil error. *)
Theorem C8_absent_hash io uri opts c resp c' t :
  Rpc io "core.add_torrent_magnet"
    [VString uri; VDict (mapToRencodeDictionary opts)] [] c
  = (Returns (Some resp, None), c', t) ->
  IsError resp = false ->
  Get (returnValue resp) 0 = inr VNil ->
  AddTorrentMagnet io uri opts c = (Returns ("", None), c', t).
Proof.
  intros H E G. unfold AddTorrentMagnet, bind, ret. rewrite H, E, G.
  rewrite app_nil_r. reflexivity.
Qed.

Lemma Connect_conn dial io c h :
  dial = inr h -> conn (snd (fst (Connect dial io c))) = Some h.
Proof.
  intros ->.
  unfold Connect, log_if_set, bind, get, put, emit, ret, panic, set_conn,
    set_classID.
  simpl.
  repeat (break_match; simpl in * );
    match goal with
    | H : Rpc ?io' ?m' ?a' ?kw' ?c' = _ |- _ =>
        pose proof (Rpc_conn io' m' a' kw' c') as Hk;
        rewrite H in Hk; simpl in Hk; exact Hk
    end.
Qed.

End Properties.

(** ** Concrete runs *)

Example connected_client :
  Ref.connected
  = mkClient (mkSettings "localhost" 58846 "user" "secret" None (30 * Second))
      (Some (Socket 0)) 1 10.
Proof. vm_compute. reflexivity. Qed.

Example serial_wraps_to_one :
  assigned_serial (R := Ref.rencode) Ref.broken_pipe "daemon.info" [] []
    (Ref.connected_at (MaxInt64 - 2)) = MaxInt64 - 1
  /\ assigned_serial (R := Ref.rencode) Ref.broken_pipe "daemon.info" [] []
       (Ref.connected_at (MaxInt64 - 1)) = 1.
Proof. split; vm_compute; reflexivity. Qed.

Example Rpc_on_nil_conn_panics :
  fst (fst (Rpc (R := Ref.rencode) Ref.broken_pipe "daemon.info" [] []
              (New Ref.quiet)))
  = Panics nil_deref.
Proof. vm_compute. reflexivity. Qed.

(** C1, counterexample.  The error envelope [("ValueError", "bad id",
    "trace…")] reaches the caller of [RemoveTorrent] as an [RPCError] whose
    message starts with ["RPC error "]; it is not the bare composite. *)
Lemma C1_counterexample :
  exists e c' t,
    RemoveTorrent (R := Ref.rencode) (Ref.answer 0 (Ref.value_error 2))
      "abc" false Ref.connected
    = (Returns (false, Some (OfRPCError e)), c', t)
    /\ RPCError_Error e
       = "RPC error ValueError('bad id')" ++ newline ++ "trace" ++ Ref.ellipsis
    /\ RPCError_Error e
       <> "ValueError('bad id')" ++ newline ++ "trace" ++ Ref.ellipsis.
Proof.
  do 3 eexists. split; [vm_compute; reflexivity|].
  split; [vm_compute; reflexivity | vm_compute; discriminate].
Qed.

Lemma C1_remote_error_message_witness :
  exists resp,
    fst (fst (Rpc (R := Ref.rencode) (Ref.answer 0 (Ref.value_error 2))
                "core.remove_torrent" [VString "abc"; VBool false] []
                Ref.connected))
    = Returns (Some resp, None)
    /\ IsError resp = true
    /\ RPCError_Error (mkRPCError (DelugeResponse_String resp))
       = "RPC error " ++ "ValueError" ++ "('" ++ "bad id" ++ "')" ++ newline
         ++ ("trace" ++ Ref.ellipsis).
Proof.
  destruct (C1_remote_error_message (R := Ref.rencode)
              (Ref.answer 0 (Ref.value_error 2)) "core.remove_torrent"
              [VString "abc"; VBool false] [] Ref.connected
              (Ref.value_error 2) 2
              [VList [VBytes "ValueError"; VBytes "bad id";
                      VBytes ("trace" ++ Ref.ellipsis)]]
              [VBytes "ValueError"; VBytes "bad id";
               VBytes ("trace" ++ Ref.ellipsis)]
              "ValueError" "bad id" ("trace" ++ Ref.ellipsis))
    as [Hall Hex].
  - split; [exists (Socket 0); simpl; tauto | reflexivity].
  - split; [reflexivity | do 2 eexists; reflexivity].
  - reflexivity.
  - reflexivity.
  - destruct Hex as [resp Hr]; [vm_compute; reflexivity|].
    exists resp. split; [exact Hr | exact (Hall resp Hr)].
Defined.

Lemma C2_serial_mismatch_witness :
  fst (fst (Rpc (R := Ref.rencode) (Ref.answer 0 [VInt8 1; VInt8 7; VNil])
              "daemon.info" [] [] Ref.connected))
  = Returns (None, Some (errors_New msg_mismatch)).
Proof.
  apply (C2_serial_mismatch (R := Ref.rencode)
           (Ref.answer 0 [VInt8 1; VInt8 7; VNil]) "daemon.info" [] []
           Ref.connected [VInt8 1; VInt8 7; VNil] 1 7).
  - split; [exists (Socket 0); simpl; tauto | reflexivity].
  - reflexivity.
  - vm_compute. discriminate.
Defined.

Lemma C3_serial_sequence_witness :
  nth_error
    (trace_serials
       (snd (run (R := Ref.rencode)
               (Ref.idle_then_call
                  ++ [CallClose None;
                      CallRemoveTorrent Ref.broken_pipe "abc" false])
               (New Ref.quiet)))) 2
  = Some 3
  /\ 0 < 3 < MaxInt64.
Proof.
  split; [vm_compute; reflexivity|].
  refine (proj1 (proj2 (proj2 (proj2
    (C3_serial_sequence (R := Ref.rencode) Ref.quiet
       (Ref.idle_then_call
          ++ [CallClose None; CallRemoveTorrent Ref.broken_pipe "abc" false])))))
    2%nat 3 _).
  vm_compute. reflexivity.
Defined.

(** C4, counterexample.  An event envelope that echoes the request id 7
    while the call assigned the serial 2 does not yield the unsupported-event
    failure: the correlation check comes first. *)
Lemma C4_counterexample :
  let io := Ref.answer 0 [VInt8 3; VInt8 7; VNil] in
  decodes (R := Ref.rencode) io "daemon.info" [] [] Ref.connected
    [VInt8 3; VInt8 7; VNil]
  /\ envelope (R := Ref.rencode) [VInt8 3; VInt8 7; VNil] rpcEvent 7 [VNil]
  /\ assigned_serial (R := Ref.rencode) io "daemon.info" [] [] Ref.connected
     = 2
  /\ fst (fst (Rpc (R := Ref.rencode) io "daemon.info" [] [] Ref.connected))
     = Returns (None, Some (errors_New msg_mismatch))
  /\ fst (fst (Rpc (R := Ref.rencode) io "daemon.info" [] [] Ref.connected))
     <> Returns (None, Some (errors_New msg_event)).
Proof.
  cbv zeta. split; [|split; [|split; [|split]]].
  - split; [exists (Socket 0); simpl; tauto | reflexivity].
  - split; [reflexivity | do 2 eexists; reflexivity].
  - vm_compute. reflexivity.
  - vm_compute. reflexivity.
  - vm_compute. discriminate.
Qed.

Lemma C4_event_and_unknown_witness :
  fst (fst (Rpc (R := Ref.rencode)
              (Ref.answer 0 [VInt8 3; VInt8 2; VBytes "TorrentAddedEvent"])
              "daemon.info" [] [] Ref.connected))
  = Returns (None, Some (errors_New msg_event)).
Proof.
  refine (proj1 (proj1 (proj2
    (C4_event_and_unknown (R := Ref.rencode)
       (Ref.answer 0 [VInt8 3; VInt8 2; VBytes "TorrentAddedEvent"])
       "daemon.info" [] [] Ref.connected
       [VInt8 3; VInt8 2; VBytes "TorrentAddedEvent"] 3 2
       [VBytes "TorrentAddedEvent"] _ _ _ _)) _) _).
  - split; [exists (Socket 0); simpl; tauto | reflexivity].
  - split; [reflexivity | do 2 eexists; reflexivity].
  - vm_compute. discriminate.
  - vm_compute. discriminate.
  - vm_compute. reflexivity.
  - reflexivity.
Defined.

Lemma C5_no_partial_result_witness :
  exists resp,
    fst (fst (Rpc (R := Ref.rencode) (Ref.answer 0 (Ref.value_error 2))
                "daemon.info" [] [] Ref.connected))
    = Returns (Some resp, None)
    /\ IsError resp = true.
Proof.
  refine (proj2 (proj2
    (C5_no_partial_result (R := Ref.rencode)
       (Ref.answer 0 (Ref.value_error 2)) "daemon.info" [] [] Ref.connected))
    (Ref.value_error 2) 2
    [VList [VBytes "ValueError"; VBytes "bad id";
            VBytes ("trace" ++ Ref.ellipsis)]]
    [VBytes "ValueError"; VBytes "bad id"; VBytes ("trace" ++ Ref.ellipsis)]
    "ValueError" "bad id" ("trace" ++ Ref.ellipsis) _ _ _ _ _).
  - split; [exists (Socket 0); simpl; tauto | reflexivity].
  - split; [reflexivity | do 2 eexists; reflexivity].
  - vm_compute. reflexivity.
  - reflexivity.
  - reflexivity.
Defined.

(** C6, counterexample.  The daemon answers [core.remove_torrent] with the
    boolean [false]; [RemoveTorrent] returns [true]. *)
Lemma C6_counterexample :
  let io := Ref.answer 0 [VInt8 1; VInt8 2; VBool false] in
  exists resp c' t,
    Rpc (R := Ref.rencode) io "core.remove_torrent"
      [VString "abc"; VBool true] [] Ref.connected
    = (Returns (Some resp, None), c', t)
    /\ IsError resp = false
    /\ returnValue resp = [VBool false]
    /\ RemoveTorrent (R := Ref.rencode) io "abc" true Ref.connected
       = (Returns (true, None), c', t).
Proof.
  cbv zeta. do 3 eexists.
  split; [vm_compute; reflexivity|].
  split; [reflexivity|]. split; [reflexivity|].
  vm_compute. reflexivity.
Qed.

Lemma C6_remove_returns_true_witness :
  exists c' t,
    RemoveTorrent (R := Ref.rencode)
      (Ref.answer 0 [VInt8 1; VInt8 2; VBool true]) "abc" true Ref.connected
    = (Returns (true, None), c', t).
Proof.
  do 2 eexists.
  eapply (C6_remove_returns_true (R := Ref.rencode)
            (Ref.answer 0 [VInt8 1; VInt8 2; VBool true]) "abc" true
            Ref.connected).
  - vm_compute. reflexivity.
  - reflexivity.
Defined.

(** C7, at [Connect] followed 100 seconds later by a call, with the default
    timeout of 30 seconds.  The login request is written with no deadline on
    the socket.  The second request is written under the deadline set during
    the login, 30 seconds, which has passed 70 seconds before the call
    starts; the call sets its own deadline, 130 seconds, only after that
    write. *)
Theorem C7_write_under_stale_deadline :
  let t := snd (run (R := Ref.rencode) Ref.idle_then_call (New Ref.quiet)) in
  write_deadlines None t = [None; Some (0 + 30 * Second)]
  /\ socket_ops t
     = [EvWrite (Socket 0) []; EvSetDeadline (Socket 0) (0 + 30 * Second);
        EvNewReader (Socket 0); EvDecode (Socket 0);
        EvWrite (Socket 0) [];
        EvSetDeadline (Socket 0) (100 * Second + 30 * Second);
        EvNewReader (Socket 0); EvDecode (Socket 0)]
  /\ 0 + 30 * Second < 100 * Second.
Proof. cbv zeta. repeat split; vm_compute; reflexivity. Qed.

Lemma C8_absent_hash_witness :
  exists c' t,
    AddTorrentMagnet (R := Ref.rencode)
      (Ref.answer 0 [VInt8 1; VInt8 2; VNil]) "magnet:?xt=urn:btih:abc"
      [("max_connections", VInt64 10)] Ref.connected
    = (Returns ("", None), c', t).
Proof.
  do 2 eexists.
  eapply (C8_absent_hash (R := Ref.rencode)
            (Ref.answer 0 [VInt8 1; VInt8 2; VNil]) "magnet:?xt=urn:btih:abc"
            [("max_connections", VInt64 10)] Ref.connected).
  - vm_compute. reflexivity.
  - reflexivity.
  - reflexivity.
Defined.

Lemma C9_double_close_witness :
  exists c1 c2,
    Close (Some (LibError "use of closed network connection")) Ref.connected
    = (Returns (Some (OfLib (LibError "use of closed network connection"))),
       c1, [EvClose (Socket 0)])
    /\ Close None c1 = (Returns (Some ErrAlreadyClosed), c2, []).
Proof.
  exact (C9_double_close Ref.connected (Socket 0)
           (Some (LibError "use of closed network connection")) None eq_refl).
Defined.

Lemma C10_already_closed_iff_nil_witness :
  fst (fst (Close None (New Ref.quiet))) = Returns (Some ErrAlreadyClosed).
Proof.
  exact (proj2 (proj1 C10_already_closed_iff_nil (New Ref.quiet) None) eq_refl).
Defined.

(** * Further properties *)

(** ** The two marshalling helpers *)

Lemma fold_left_snoc_map {A B} (f : A -> B) (l : list A) :
  forall acc, fold_left (fun r x => (r ++ [f x])%list) l acc
              = (acc ++ map f l)%list.
Proof.
  induction l as [|x l IH]; intros acc; simpl.
  - rewrite app_nil_r. reflexivity.
  - rewrite IH, <- app_assoc. reflexivity.
Qed.

(** X1. [sliceToRencodeList] turns a slice of strings into the list of the
    same strings, one element each, in the same order. *)
Theorem X1_sliceToRencodeList_map (s : list string) :
  sliceToRencodeList s = map VString s
  /\ length (sliceToRencodeList s) = length s
  /\ forall i, nth_error (sliceToRencodeList s) i
               = option_map VString (nth_error s i).
Proof.
  assert (E : sliceToRencodeList s = map VString s).
  { unfold sliceToRencodeList. rewrite (fold_left_snoc_map VString).
    reflexivity. }
  rewrite E. split; [reflexivity|]. split.
  - apply length_map.
  - intros i. apply nth_error_map.
Qed.

(** X2. [mapToRencodeDictionary] transcodes every entry of the options, key
    as a string and value untouched, one dictionary entry per option, in the
    order the range visits them; no option is dropped or merged. *)
Theorem X2_mapToRencodeDictionary_map (m : Options) :
  mapToRencodeDictionary m = map (fun kv => (VString (fst kv), snd kv)) m
  /\ length (mapToRencodeDictionary m) = length m
  /\ forall k v, In (k, v) m <-> In (VString k, v) (mapToRencodeDictionary m).
Proof.
  assert (E : mapToRencodeDictionary m
              = map (fun kv => (VString (fst kv), snd kv)) m).
  { unfold mapToRencodeDictionary.
    rewrite (fold_left_snoc_map (fun kv => (VString (fst kv), snd kv))).
    reflexivity. }
  rewrite E. split; [reflexivity|]. split.
  - apply length_map.
  - intros k v. rewrite in_map_iff. split.
    + intros H. exists (k, v). split; [reflexivity | exact H].
    + intros [[k' v'] [H1 H2]]. simpl in H1. injection H1 as <- <-. exact H2.
Qed.

(** The rest of a wrapper after its call of [Rpc] leaves the client alone
    and encodes nothing. *)
Ltac quiet_continuation :=
  let r := fresh "r" in
  let c1 := fresh "c1" in
  intros r c1; destruct r as [[?|] [?|]];
  unfold bind, ret, panic, emit; simpl;
  repeat (break_match; simpl); split; reflexivity.

Section MoreProperties.
Context {R : Rencode} {R2 : RencodeMore} {F : GoSyntax}.

(** ** [Rpc], path by path *)

Lemma log_if_set_eq (line : string) (c : Client) :
  log_if_set line c = (Returns tt, c, log_events c line).
Proof.
  unfold log_if_set, log_events, bind, get, emit, ret. simpl.
  destruct (Logger (settings c)); reflexivity.
Qed.

Lemma Rpc_classify_eq m mt rid rest c :
  Rpc_classify m mt rid rest c =
    if mt =? rpcResponse then
      let resp := mkDelugeResponse mt rid rest "" "" "" "" [] in
      (Returns (Some resp, None), c,
       log_events c ("RPC(" ++ m ++ ") = " ++ DelugeResponse_String resp
                     ++ newline))
    else if mt =? rpcError then
      match Scan_List rest with
      | inl e => (Returns (None, Some (OfLib e)), c, [])
      | inr errList =>
          match Scan_string3 errList with
          | inl e => (Returns (None, Some (OfLib e)), c, [])
          | inr (et, em, tb) =>
              let resp := mkDelugeResponse mt rid [] et em tb "" [] in
              (Returns (Some resp, None), c,
               log_events c ("RPC(" ++ m ++ ") = "
                             ++ DelugeResponse_String resp ++ newline))
          end
      end
    else if mt =? rpcEvent then
      (Returns (None, Some (errors_New msg_event)), c, [])
    else (Returns (None, Some (errors_New msg_unknown)), c, []).
Proof.
  unfold Rpc_classify, Rpc_done, bind, ret. cbv zeta.
  repeat (break_match; try rewrite log_if_set_eq; simpl;
          try rewrite app_nil_r); try reflexivity.
Qed.

(** Every path through [Rpc]: what it returns, the client it leaves and the
    trace it makes. *)
Lemma Rpc_paths io m a kw c :
  Rpc io m a kw c =
    let c1 := set_serial c (next_serial (serial c)) in
    let p := request_payload (serial c1) m a kw in
    let t := time_Now io + ReadWriteTimeout (settings c) in
    let sent :=
      (EvEncode p :: log_events c ("flushed zlib buffer" ++ newline))%list in
    match Encode io p with
    | Some e => (Returns (None, Some (OfLib e)), c1, [EvEncode p])
    | None =>
    match zlib_Close io with
    | Some e => (Returns (None, Some (OfLib e)), c1, [EvEncode p])
    | None =>
    match conn c with
    | None => (Panics nil_deref, c1, sent)
    | Some h =>
    match conn_Write io (Bytes io p) with
    | (_, Some e) =>
        (Returns (None, Some (OfLib e)), c1,
         (sent ++ [EvWrite h (Bytes io p)])%list)
    | (n, None) =>
    let written :=
      (sent ++ EvWrite h (Bytes io p)
         :: log_events c ("written " ++ fmt_d n ++ " bytes to RPC connection")
         ++ [EvSetDeadline h t])%list in
    match conn_SetDeadline io t with
    | Some e => (Returns (None, Some (OfLib e)), c1, written)
    | None =>
    match zlib_NewReader io with
    | Some e =>
        (Returns (None, Some (OfLib e)), c1, (written ++ [EvNewReader h])%list)
    | None =>
    let read := (written ++ [EvNewReader h; EvDecode h])%list in
    match Decoder_Scan io with
    | inl e => (Returns (None, Some (OfLib e)), c1, read)
    | inr respList =>
    match Scan_int64_int64 respList with
    | inl e => (Returns (None, Some (OfLib e)), c1, read)
    | inr (mt, rid) =>
    if negb (rid =? serial c1) then
      (Returns (None, Some (errors_New msg_mismatch)), c1, read)
    else
    match respList with
    | _ :: _ :: rest =>
        (fst (fst (Rpc_classify m mt rid rest c1)), c1,
         (read ++ snd (Rpc_classify m mt rid rest c1))%list)
    | _ => (Panics "slice bounds out of range", c1, read)
    end end end end end end end end end.
Proof.
  cbv zeta. unfold next_serial.
  unfold Rpc, resetTimeout, bind, get, put, emit, ret, panic, set_serial,
    of_lib, option_map.
  repeat rewrite log_if_set_eq. simpl.
  repeat (try rewrite Rpc_classify_eq; break_match; simpl in *;
          try rewrite log_if_set_eq; simpl in * );
    unfold log_events; simpl;
    repeat rewrite <- app_assoc; simpl;
    repeat (break_match; simpl in * );
    repeat rewrite app_nil_r; try reflexivity.
Qed.

Ltac by_paths :=
  rewrite ?Rpc_paths; cbv zeta; unfold log_events;
  repeat (try (rewrite !Rpc_classify_eq; cbv zeta; unfold log_events);
          break_match; simpl in * ).

Lemma Rpc_client io m a kw c :
  snd (fst (Rpc io m a kw c)) = set_serial c (next_serial (serial c)).
Proof. by_paths; reflexivity. Qed.

Lemma trace_payloads_app (t1 t2 : list event) :
  trace_payloads (t1 ++ t2) = (trace_payloads t1 ++ trace_payloads t2)%list.
Proof.
  induction t1 as [|e t1 IH]; simpl; [reflexivity|].
  destruct e; simpl; try exact IH. rewrite IH. reflexivity.
Qed.

Lemma Rpc_trace_payloads io m a kw c :
  trace_payloads (snd (Rpc io m a kw c))
  = [request_payload (next_serial (serial c)) m a kw].
Proof.
  by_paths; repeat (rewrite trace_payloads_app; simpl); reflexivity.
Qed.

(** The errors [Rpc] returns are its three own messages and the errors of
    the libraries. *)
Lemma Rpc_error_kinds io m a kw c resp e :
  fst (fst (Rpc io m a kw c)) = Returns (resp, Some e) ->
  e = errors_New msg_mismatch \/ e = errors_New msg_event
  \/ e = errors_New msg_unknown \/ exists l, e = OfLib l.
Proof.
  by_paths; intros H; try discriminate H; injection H as _ <-; eauto 6.
Qed.

(** X3. Whatever happens during a call of [Rpc] (a library error, a
    correlation failure, a panic), the client keeps its connection, its
    settings and its class id; the call only moves the serial on, also when
    nothing was sent. *)
Theorem X3_Rpc_only_moves_serial io m a kw c :
  let c' := snd (fst (Rpc io m a kw c)) in
  c' = set_serial c (next_serial (serial c))
  /\ conn c' = conn c /\ settings c' = settings c /\ classID c' = classID c.
Proof. cbv zeta. rewrite Rpc_client. repeat split. Qed.

(** X4. On a client whose connection is nil (fresh from [New], or after
    [Close]), a call of [Rpc] whose request encodes panics with a nil
    dereference: it returns no error, performs no socket operation, and has
    consumed a serial. *)
Theorem X4_Rpc_without_connection_panics io m a kw c :
  conn c = None ->
  Encode io (request_payload (next_serial (serial c)) m a kw) = None ->
  zlib_Close io = None ->
  fst (fst (Rpc io m a kw c)) = Panics nil_deref
  /\ socket_ops (snd (Rpc io m a kw c)) = []
  /\ serial (snd (fst (Rpc io m a kw c))) = next_serial (serial c).
Proof.
  intros Hc He Hz. rewrite Rpc_paths. cbv zeta.
  simpl serial. rewrite He, Hz, Hc. unfold log_events.
  destruct (Logger (settings c)); repeat split.
Qed.

(** X5. A decoded response envelope (type 1) that echoes the serial is
    returned as a non-error response whose return values are the elements
    of the envelope after its two header elements, in order, with a nil
    error. *)
Theorem X5_Rpc_response_payload io m a kw c respList rid payload :
  decodes io m a kw c respList ->
  envelope respList rpcResponse rid payload ->
  rid = assigned_serial io m a kw c ->
  exists resp,
    fst (fst (Rpc io m a kw c)) = Returns (Some resp, None)
    /\ returnValue resp = payload
    /\ IsError resp = false
    /\ requestID resp = assigned_serial io m a kw c.
Proof.
  intros Hd [Hs (v1 & v2 & Hl)] Hr.
  unfold assigned_serial in *. rewrite Rpc_serial in *.
  rewrite (Rpc_after_decode _ _ _ _ _ _ Hd), Hs. subst respList.
  rewrite Rpc_classify_result. subst rid. rewrite Z.eqb_refl. simpl.
  eexists. repeat split.
Qed.

(** X6. When the request cannot be encoded or the compressed buffer cannot
    be flushed, [Rpc] returns that error with a nil response and makes no
    socket operation; the serial it assigned is spent all the same, so the
    next request skips it. *)
Theorem X6_Rpc_encode_failure io m a kw c e :
  Encode io (request_payload (next_serial (serial c)) m a kw) = Some e
  \/ (Encode io (request_payload (next_serial (serial c)) m a kw) = None
      /\ zlib_Close io = Some e) ->
  forall io' m' a' kw',
    fst (fst (Rpc io m a kw c)) = Returns (None, Some (OfLib e))
    /\ socket_ops (snd (Rpc io m a kw c)) = []
    /\ trace_serials (snd (Rpc io' m' a' kw' (snd (fst (Rpc io m a kw c)))))
       = [next_serial (next_serial (serial c))].
Proof.
  intros H io' m' a' kw'.
  rewrite Rpc_trace_serials, Rpc_serial.
  rewrite Rpc_paths. cbv zeta. simpl serial.
  destruct H as [He | [He Hz]].
  - rewrite He. repeat split.
  - rewrite He, Hz. repeat split.
Qed.

(** X7. [Rpc] passes errors on unwrapped and makes only three of its own:
    an error it returns is a library's error or one of the serial-mismatch,
    unsupported-event and unknown-message-type errors.  It never returns
    [ErrAlreadyClosed], and never an [RPCError]: a remote failure comes back
    as a response. *)
Theorem X7_Rpc_error_kinds io m a kw c resp e :
  fst (fst (Rpc io m a kw c)) = Returns (resp, Some e) ->
  (e = errors_New msg_mismatch \/ e = errors_New msg_event
   \/ e = errors_New msg_unknown \/ exists l, e = OfLib l)
  /\ e <> ErrAlreadyClosed
  /\ forall r, e <> OfRPCError r.
Proof.
  intros H. pose proof (Rpc_error_kinds _ _ _ _ _ _ _ H) as K.
  split; [exact K|].
  split; [|intros r]; destruct K as [-> | [-> | [-> | [l ->]]]]; discriminate.
Qed.

Lemma unlogged_app (t1 t2 : list event) :
  unlogged (t1 ++ t2) = (unlogged t1 ++ unlogged t2)%list.
Proof. apply filter_app. Qed.

(** X8. The logger is only written to: with any logger or with none, a
    call of [Rpc] returns the same result, leaves the same serial,
    connection and class id, and makes the same trace apart from log
    lines; with no logger it logs nothing. *)
Theorem X8_Rpc_logger_is_passive io m a kw c l :
  fst (fst (Rpc io m a kw (set_Logger c l))) = fst (fst (Rpc io m a kw c))
  /\ snd (fst (Rpc io m a kw (set_Logger c l)))
     = set_Logger (snd (fst (Rpc io m a kw c))) l
  /\ unlogged (snd (Rpc io m a kw (set_Logger c l)))
     = unlogged (snd (Rpc io m a kw c))
  /\ (Logger (settings c) = None ->
      unlogged (snd (Rpc io m a kw c)) = snd (Rpc io m a kw c)).
Proof.
  rewrite !Rpc_paths. cbv zeta.
  unfold log_events, set_Logger, set_serial. simpl.
  repeat (try (rewrite !Rpc_classify_eq; cbv zeta; unfold log_events);
          break_match; simpl in * );
    repeat (rewrite unlogged_app; simpl);
    repeat split; try reflexivity; try discriminate.
Qed.

(** ** [Connect] *)

(** [Connect] in terms of the login call it makes. *)
Lemma Connect_paths dial io c :
  Connect dial io c =
    match dial with
    | inl e => (Returns (Some (OfLib e)), set_conn c None, [EvDial (dial_addr c)])
    | inr h =>
        let c1 := set_conn c (Some h) in
        let c2 := set_serial c1 (next_serial (serial c)) in
        let pre :=
          (EvDial (dial_addr c)
             :: log_events c ("connected to " ++ dial_addr c ++ newline))%list in
        let login := Rpc io "daemon.login" (login_args c) [] c1 in
        match fst (fst login) with
        | Panics msg => (Panics msg, c2, (pre ++ snd login)%list)
        | Returns (_, Some e) => (Returns (Some e), c2, (pre ++ snd login)%list)
        | Returns (None, None) => (Panics nil_deref, c2, (pre ++ snd login)%list)
        | Returns (Some resp, None) =>
            if IsError resp then
              (Returns (Some (OfRPCError
                               (mkRPCError (DelugeResponse_String resp)))),
               c2, (pre ++ snd login)%list)
            else
              match Scan_int64 (returnValue resp) with
              | inl e => (Returns (Some (OfLib e)), c2, (pre ++ snd login)%list)
              | inr id =>
                  (Returns None, set_classID c2 id,
                   (pre ++ snd login
                      ++ log_events c ("login successful as user "
                                       ++ Login (settings c) ++ newline))%list)
              end
        end
    end.
Proof.
  unfold Connect, dial_addr, login_args.
  destruct dial as [e | h].
  - unfold bind, get, put, emit, ret. reflexivity.
  - cbv zeta.
    pose proof (Rpc_client io "daemon.login"
                  [VString (Login (settings c)); VString (Password (settings c))]
                  [] (set_conn c (Some h))) as Hc.
    unfold bind at 1, get at 1. unfold bind at 1, emit at 1.
    unfold bind at 1, put at 1. unfold bind at 1.
    rewrite log_if_set_eq. unfold bind at 1.
    destruct (Rpc io "daemon.login" _ [] (set_conn c (Some h)))
      as [[r c2] t]. simpl in Hc. subst c2. simpl.
    unfold log_events, set_conn, set_serial, set_classID. simpl.
    destruct r as [[[resp|] [e|]] | msg]; simpl;
      try match goal with
          | |- context [IsError ?r] => destruct (IsError r); simpl
          end;
      try match goal with
          | |- context [Scan_int64 ?l] => destruct (Scan_int64 l); simpl
          end;
      unfold bind, get, put, ret, panic; try rewrite log_if_set_eq;
      unfold log_events; simpl;
      destruct (Logger (settings c)); simpl;
      repeat rewrite app_nil_r; reflexivity.
Qed.

Lemma Rpc_never_closes io m a kw c :
  existsb is_Close (snd (Rpc io m a kw c)) = false.
Proof.
  by_paths; repeat (rewrite existsb_app; simpl); reflexivity.
Qed.

Ltac by_Connect_paths :=
  rewrite Connect_paths; cbv zeta; unfold log_events;
  repeat (break_match; simpl in * ).

(** X9. When the dial fails, [Connect] returns the dial's error, sends
    nothing and spends no serial; it sets the connection to nil, also on a
    client that held a socket, which it does not close, so a [Close] that
    follows returns [ErrAlreadyClosed]. *)
Theorem X9_Connect_dial_failure io c e closed :
  let r := Connect (inl e) io c in
  r = (Returns (Some (OfLib e)), set_conn c None,
       [EvDial (Hostname (settings c) ++ ":" ++ fmt_d (Port (settings c)))])
  /\ trace_payloads (snd r) = []
  /\ serial (snd (fst r)) = serial c
  /\ Close closed (snd (fst r))
     = (Returns (Some ErrAlreadyClosed), set_conn c None, []).
Proof. cbv zeta. rewrite Connect_paths. repeat split. Qed.

(** X10. After a dial that succeeded, the client holds the new socket
    whatever became of the login (accepted, refused, failed or panicked), and
    [Connect] has closed no socket, neither the new one nor one the client
    held before; the [Close] that follows closes the new socket. *)
Theorem X10_Connect_keeps_socket io c h closed :
  let r := Connect (inr h) io c in
  conn (snd (fst r)) = Some h
  /\ existsb is_Close (snd r) = false
  /\ snd (Close closed (snd (fst r))) = [EvClose h]
  /\ fst (fst (Close closed (snd (fst r)))) = Returns (option_map OfLib closed).
Proof.
  cbv zeta.
  pose proof (Rpc_never_closes io "daemon.login" (login_args c) []
                (set_conn c (Some h))) as Hn.
  by_Connect_paths;
    repeat (rewrite existsb_app; simpl); rewrite ?Hn;
    repeat (rewrite existsb_app; simpl); rewrite ?Hn;
    repeat split.
Qed.

(** X11. [Connect] returns a nil error only when the dial succeeded, the
    login call returned a non-error response and its first value scanned as
    an integer, which is then the client's class id.  In every other case
    the class id is what it was. *)
Theorem X11_Connect_classID dial io c :
  let r := Connect dial io c in
  (fst (fst r) = Returns None ->
   exists h resp,
     dial = inr h
     /\ fst (fst (Rpc io "daemon.login"
                    [VString (Login (settings c));
                     VString (Password (settings c))] []
                    (set_conn c (Some h))))
        = Returns (Some resp, None)
     /\ IsError resp = false
     /\ Scan_int64 (returnValue resp) = inr (classID (snd (fst r))))
  /\ (fst (fst r) <> Returns None -> classID (snd (fst r)) = classID c).
Proof.
  cbv zeta. rewrite Connect_paths. cbv zeta. unfold login_args.
  destruct dial as [e | h].
  - split; [intros H; discriminate H | reflexivity].
  - destruct (fst (fst (Rpc io "daemon.login" _ [] (set_conn c (Some h)))))
      as [[[resp|] [e|]] | msg] eqn:E; simpl;
      try (split; [intros H; discriminate H | reflexivity]).
    destruct (IsError resp) eqn:EI; simpl;
      [split; [intros H; discriminate H | reflexivity]|].
    destruct (Scan_int64 (returnValue resp)) as [e | id] eqn:ES; simpl.
    + split; [intros H; discriminate H | reflexivity].
    + split; [|intros N; contradiction N; reflexivity].
      intros _. exists h, resp. repeat split; assumption.
Qed.

(** X12. [Connect] makes exactly one request when the dial succeeded, and
    none when it failed: the call [daemon.login] with the two arguments
    login and password, in this order, and no keyword arguments, under the
    client's next serial. *)
Theorem X12_Connect_login_request dial io c :
  trace_payloads (snd (Connect dial io c)) =
    match dial with
    | inl _ => []
    | inr _ =>
        [VList [VList [VInt64 (next_serial (serial c)); VString "daemon.login";
                       VList [VString (Login (settings c));
                              VString (Password (settings c))];
                       VDict []]]]
    end.
Proof.
  destruct dial as [e | h]; [rewrite Connect_paths; reflexivity|].
  pose proof (Rpc_trace_payloads io "daemon.login" (login_args c) []
                (set_conn c (Some h))) as Hp.
  by_Connect_paths;
    repeat (rewrite trace_payloads_app; simpl); rewrite Hp; reflexivity.
Qed.

(** ** The wrappers as users of [Rpc] *)

Lemma bind_Rpc_sends_once {A} io name args (k : _ -> M A) :
  (forall r c1,
     snd (fst (k r c1)) = c1 /\ trace_payloads (snd (k r c1)) = []) ->
  sends_once (bind (Rpc io name args []) k) name args.
Proof.
  intros Hk c. unfold bind.
  pose proof (Rpc_client io name args [] c) as Hc.
  pose proof (Rpc_trace_payloads io name args [] c) as Hp.
  destruct (Rpc io name args [] c) as [[[r | msg] c1] t]; simpl in *.
  - destruct (Hk r c1) as [H1 H2].
    destruct (k r c1) as [[r' c2] t']. simpl in *. subst c2.
    rewrite trace_payloads_app, Hp, H2. split; [exact Hc | reflexivity].
  - split; assumption.
Qed.

Lemma emit_then {A} (e : event) (w : M A) (c : Client) :
  bind (emit e) (fun _ => w) c
  = (fst (fst (w c)), snd (fst (w c)), e :: snd (w c)).
Proof. unfold bind, emit. destruct (w c) as [[r c1] t]. reflexivity. Qed.

(** X13. Every wrapper makes exactly one request, the call of its method
    with its arguments in their order and no keyword arguments, and leaves
    the client as that one call of [Rpc] leaves it: the serial moved on, the
    connection, settings and class id untouched. *)
Theorem X13_wrappers_send_once io :
  (forall uri opts,
     sends_once (AddTorrentMagnet io uri opts) "core.add_torrent_magnet"
       [VString uri; VDict (map (fun kv => (VString (fst kv), snd kv)) opts)])
  /\ (forall url opts,
        sends_once (AddTorrentURL io url opts) "core.add_torrent_url"
          [VString url;
           VDict (map (fun kv => (VString (fst kv), snd kv)) opts)])
  /\ (forall id rd,
        sends_once (RemoveTorrent io id rd) "core.remove_torrent"
          [VString id; VBool rd])
  /\ (forall ids dest,
        sends_once (MoveStorage io ids dest) "core.move_storage"
          [VList (map VString ids); VString dest])
  /\ sends_once (MethodsList io) "daemon.get_method_list" []
  /\ sends_once (DaemonVersion io) "daemon.info" []
  /\ (forall id keys diff,
        sends_once (GetTorrentStatus io id keys diff) "core.get_torrent_status"
          [VString id; VList (map VString keys); VBool diff])
  /\ (forall filter keys diff,
        sends_once (GetTorrentsStatus io filter keys diff)
          "core.get_torrents_status"
          [VDict (map (fun kv => (VString (fst kv),
                                  VList (map VString (snd kv)))) filter);
           VList (map VString keys); VBool diff])
  /\ sends_once (GetSessionState io) "core.get_session_state" [].
Proof.
  assert (HS : forall s, sliceToRencodeList s = map VString s).
  { intros s. unfold sliceToRencodeList.
    rewrite (fold_left_snoc_map VString). reflexivity. }
  assert (HM : forall m, mapToRencodeDictionary m
                         = map (fun kv => (VString (fst kv), snd kv)) m).
  { intros m. unfold mapToRencodeDictionary.
    rewrite (fold_left_snoc_map (fun kv => (VString (fst kv), snd kv))).
    reflexivity. }
  assert (HF : forall f, filter_to_Dictionary f
                         = map (fun kv => (VString (fst kv),
                                           VList (map VString (snd kv)))) f).
  { intros f. unfold filter_to_Dictionary.
    rewrite (fold_left_snoc_map
               (fun kv => (VString (fst kv),
                           VList (sliceToRencodeList (snd kv))))).
    simpl. apply map_ext. intros kv. rewrite HS. reflexivity. }
  split; [|split; [|split; [|split; [|split; [|split; [|split; [|split]]]]]]].
  - intros uri opts. rewrite <- HM. unfold AddTorrentMagnet.
    apply bind_Rpc_sends_once. quiet_continuation.
  - intros url opts. rewrite <- HM. unfold AddTorrentURL.
    apply bind_Rpc_sends_once. quiet_continuation.
  - intros id rd. unfold RemoveTorrent.
    apply bind_Rpc_sends_once. quiet_continuation.
  - intros ids dest. rewrite <- HS. unfold MoveStorage.
    apply bind_Rpc_sends_once. quiet_continuation.
  - unfold MethodsList. apply bind_Rpc_sends_once. quiet_continuation.
  - unfold DaemonVersion. apply bind_Rpc_sends_once. quiet_continuation.
  - intros id keys diff. rewrite <- HS. unfold GetTorrentStatus.
    apply bind_Rpc_sends_once. quiet_continuation.
  - intros filter keys diff. rewrite <- HF, <- HS. unfold GetTorrentsStatus.
    intros c. cbv zeta. rewrite !emit_then.
    match goal with
    | |- context [bind (Rpc io ?n ?a []) ?k] =>
        assert (H : sends_once (bind (Rpc io n a []) k) n a)
          by (apply bind_Rpc_sends_once; quiet_continuation);
        destruct (H c) as [H1 H2];
        destruct (bind (Rpc io n a []) k c) as [[r' c'] t']
    end.
    simpl in *. split; assumption.
  - unfold GetSessionState. apply bind_Rpc_sends_once. quiet_continuation.
Qed.

Ltac wrapper_cases :=
  rewrite ?emit_then; simpl fst; unfold bind;
  match goal with
  | |- context [Rpc ?io ?n ?a ?kw ?c] =>
      let K := fresh "K" in
      pose proof (Rpc_error_kinds io n a kw c) as K;
      destruct (Rpc io n a kw c) as [[[[[?|] [?|]] | ?] ?] ?]
  end;
  unfold ret, panic, emit; simpl in *; repeat (break_match; simpl in * ).

(** X14. No wrapper returns a result together with an error: whenever the
    error is not nil, the result is the zero value ([""], [false], a nil
    map), an empty list for [MethodsList], and nil or an empty list for
    [GetSessionState]. *)
Theorem X14_wrappers_no_partial_result io c e :
  (forall uri opts x,
     fst (fst (AddTorrentMagnet io uri opts c)) = Returns (x, Some e) ->
     x = "")
  /\ (forall url opts x,
        fst (fst (AddTorrentURL io url opts c)) = Returns (x, Some e) ->
        x = "")
  /\ (forall id rd x,
        fst (fst (RemoveTorrent io id rd c)) = Returns (x, Some e) ->
        x = false)
  /\ (forall x,
        fst (fst (MethodsList io c)) = Returns (x, Some e) -> x = Some [])
  /\ (forall x,
        fst (fst (DaemonVersion io c)) = Returns (x, Some e) -> x = "")
  /\ (forall id keys diff x,
        fst (fst (GetTorrentStatus io id keys diff c)) = Returns (x, Some e) ->
        x = None)
  /\ (forall filter keys diff x,
        fst (fst (GetTorrentsStatus io filter keys diff c))
        = Returns (x, Some e) ->
        x = None)
  /\ (forall x,
        fst (fst (GetSessionState io c)) = Returns (x, Some e) ->
        x = None \/ x = Some []).
Proof.
  split; [|split; [|split; [|split; [|split; [|split; [|split]]]]]].
  - intros uri opts x. unfold AddTorrentMagnet. wrapper_cases;
      intros H; try discriminate H; injection H as <- _; reflexivity.
  - intros url opts x. unfold AddTorrentURL. wrapper_cases;
      intros H; try discriminate H; injection H as <- _; reflexivity.
  - intros id rd x. unfold RemoveTorrent. wrapper_cases;
      intros H; try discriminate H; injection H as <- _; reflexivity.
  - intros x. unfold MethodsList. wrapper_cases;
      intros H; try discriminate H; injection H as <- _; reflexivity.
  - intros x. unfold DaemonVersion. wrapper_cases;
      intros H; try discriminate H; injection H as <- _; reflexivity.
  - intros id keys diff x. unfold GetTorrentStatus. wrapper_cases;
      intros H; try discriminate H; injection H as <- _; reflexivity.
  - intros filter keys diff x. unfold GetTorrentsStatus. wrapper_cases;
      intros H; try discriminate H; injection H as <- _; reflexivity.
  - intros x. unfold GetSessionState. wrapper_cases;
      intros H; try discriminate H; injection H as <- _; auto.
Qed.

Lemma remote_message_of_error_response (resp : DelugeResponse) :
  IsError resp = true ->
  remote_message (mkRPCError (DelugeResponse_String resp)).
Proof.
  unfold IsError, remote_message, DelugeResponse_String. intros ->.
  simpl. eauto.
Qed.

Ltac remote_case :=
  intros H; try discriminate H;
  first
    [ injection H as _ H | injection H as H ];
  try discriminate H;
  first
    [ match goal with
      | |- remote_message ?r => subst r
      end;
      apply remote_message_of_error_response; assumption
    | exfalso;
      match goal with
      | K : forall resp e, _ = _ -> _ |- _ =>
          destruct (K _ _ eq_refl) as [K1 | [K1 | [K1 | [? K1]]]];
          rewrite K1 in H; discriminate H
      end ].

(** X15. An [RPCError] returned by [Connect] or by a wrapper always carries
    the text of an error response, ["RPC error " ++ type ++ "('" ++ message
    ++ "')" ++ newline ++ traceback]; none is made from anything else. *)
Theorem X15_RPCError_only_from_error_response io c r :
  (forall dial,
     fst (fst (Connect dial io c)) = Returns (Some (OfRPCError r)) ->
     remote_message r)
  /\ (forall uri opts x,
        fst (fst (AddTorrentMagnet io uri opts c))
        = Returns (x, Some (OfRPCError r)) -> remote_message r)
  /\ (forall url opts x,
        fst (fst (AddTorrentURL io url opts c))
        = Returns (x, Some (OfRPCError r)) -> remote_message r)
  /\ (forall ids dest,
        fst (fst (MoveStorage io ids dest c)) = Returns (Some (OfRPCError r)) ->
        remote_message r)
  /\ (forall id rd x,
        fst (fst (RemoveTorrent io id rd c))
        = Returns (x, Some (OfRPCError r)) -> remote_message r)
  /\ (forall x,
        fst (fst (MethodsList io c)) = Returns (x, Some (OfRPCError r)) ->
        remote_message r)
  /\ (forall x,
        fst (fst (DaemonVersion io c)) = Returns (x, Some (OfRPCError r)) ->
        remote_message r)
  /\ (forall id keys diff x,
        fst (fst (GetTorrentStatus io id keys diff c))
        = Returns (x, Some (OfRPCError r)) -> remote_message r)
  /\ (forall filter keys diff x,
        fst (fst (GetTorrentsStatus io filter keys diff c))
        = Returns (x, Some (OfRPCError r)) -> remote_message r)
  /\ (forall x,
        fst (fst (GetSessionState io c)) = Returns (x, Some (OfRPCError r)) ->
        remote_message r).
Proof.
  split; [|split; [|split; [|split; [|split; [|split; [|split; [|split;
    [|split]]]]]]]].
  - intros dial. rewrite Connect_paths. cbv zeta.
    destruct dial as [e | h]; [intros H; discriminate H|].
    pose proof (Rpc_error_kinds io "daemon.login" (login_args c) []
                  (set_conn c (Some h))) as K.
    destruct (fst (fst (Rpc io "daemon.login" (login_args c) []
                          (set_conn c (Some h)))))
      as [[[resp|] [e|]] | msg]; simpl; repeat (break_match; simpl);
      remote_case.
  - intros uri opts x. unfold AddTorrentMagnet. wrapper_cases; remote_case.
  - intros url opts x. unfold AddTorrentURL. wrapper_cases; remote_case.
  - intros ids dest. unfold MoveStorage. wrapper_cases; remote_case.
  - intros id rd x. unfold RemoveTorrent. wrapper_cases; remote_case.
  - intros x. unfold MethodsList. wrapper_cases; remote_case.
  - intros x. unfold DaemonVersion. wrapper_cases; remote_case.
  - intros id keys diff x. unfold GetTorrentStatus. wrapper_cases; remote_case.
  - intros filter keys diff x. unfold GetTorrentsStatus.
    wrapper_cases; remote_case.
  - intros x. unfold GetSessionState. wrapper_cases; remote_case.
Qed.

End MoreProperties.

(** ** Go maps and the conversion loops *)

Lemma smap_get_remove {X} (k k' : string) (m : smap X) :
  smap_get k (smap_remove k' m)
  = if String.eqb k k' then None else smap_get k m.
Proof.
  induction m as [|[k0 v0] m IH]; simpl.
  - destruct (String.eqb k k'); reflexivity.
  - destruct (String.eqb k' k0) eqn:E0; simpl.
    + apply String.eqb_eq in E0. subst k0. rewrite IH.
      destruct (String.eqb k k'); reflexivity.
    + rewrite IH. destruct (String.eqb k k') eqn:E; [|reflexivity].
      apply String.eqb_eq in E. subst k'. rewrite E0. reflexivity.
Qed.

Lemma smap_get_set {X} (k k' : string) (v : X) (m : smap X) :
  smap_get k (smap_set k' v m)
  = if String.eqb k k' then Some v else smap_get k m.
Proof.
  unfold smap_set. simpl. rewrite smap_get_remove.
  destruct (String.eqb k k'); reflexivity.
Qed.

Lemma smap_keys_remove {X} (k k' : string) (m : smap X) :
  In k (smap_keys (smap_remove k' m)) <-> k <> k' /\ In k (smap_keys m).
Proof.
  unfold smap_keys. induction m as [|[k0 v0] m IH]; simpl.
  - tauto.
  - destruct (String.eqb k' k0) eqn:E0; simpl.
    + apply String.eqb_eq in E0. subst k0. rewrite IH.
      split; [tauto|]. intros [N [E | H]]; [congruence | tauto].
    + apply String.eqb_neq in E0. rewrite IH.
      split; [intros [E | H]; [subst; split; [congruence | tauto] | tauto]
             | tauto].
Qed.

Lemma smap_remove_NoDup {X} (k : string) (m : smap X) :
  NoDup (smap_keys m) -> NoDup (smap_keys (smap_remove k m)).
Proof.
  unfold smap_keys. induction m as [|[k0 v0] m IH]; simpl; intros H.
  - constructor.
  - inversion H as [|? ? Hn Hd]; subst.
    destruct (String.eqb k k0); simpl; [apply IH; exact Hd|].
    constructor; [|apply IH; exact Hd].
    intros Hin. apply (smap_keys_remove k0 k m) in Hin. tauto.
Qed.

Lemma smap_set_NoDup {X} (k : string) (v : X) (m : smap X) :
  NoDup (smap_keys m) -> NoDup (smap_keys (smap_set k v m)).
Proof.
  intros H. unfold smap_set. simpl. constructor.
  - intros Hin. apply smap_keys_remove in Hin. tauto.
  - apply smap_remove_NoDup. exact H.
Qed.

Lemma smap_remove_length {X} (k : string) (m : smap X) :
  (length (smap_remove k m) <= length m)%nat.
Proof.
  induction m as [|[k0 v0] m IH]; simpl; [lia|].
  destruct (String.eqb k k0); simpl; lia.
Qed.

Lemma strings_of_iff (vs : list value) (l : list string) :
  strings_of vs = Some l <-> vs = map VBytes l.
Proof.
  revert l. induction vs as [|v vs IH]; intros l; simpl.
  - split; [intros H; injection H as <-; reflexivity|].
    destruct l; [reflexivity | discriminate].
  - destruct v; simpl;
      try (split; [discriminate | destruct l; discriminate]).
    destruct (strings_of vs) as [l'|] eqn:E.
    + split.
      * intros H. injection H as <-. simpl. f_equal. apply IH. reflexivity.
      * destruct l as [|s0 l0]; [discriminate|]. simpl. intros H.
        injection H as -> H. apply IH in H. injection H as ->. reflexivity.
    + split; [discriminate|].
      destruct l as [|s0 l0]; [discriminate|]. simpl. intros H.
      injection H as -> H. apply IH in H. discriminate H.
Qed.

Lemma strings_of_none_iff (vs : list value) :
  strings_of vs = None <-> all_bytes vs = false.
Proof.
  unfold all_bytes. induction vs as [|v vs IH]; simpl.
  - split; discriminate.
  - destruct (assert_bytes v); simpl; [|tauto].
    destruct (strings_of vs); [|tauto].
    split; [discriminate|]. intros H. apply IH in H. discriminate H.
Qed.

Lemma dict_last_In (k : string) (d : Dictionary) (v : value) :
  dict_last k d = Some v -> In (VBytes k, v) d.
Proof.
  induction d as [|[k0 v0] d IH]; simpl; [discriminate|].
  destruct (dict_last k d) as [v'|].
  - intros H. injection H as <-. right. apply IH. reflexivity.
  - destruct k0; simpl; try discriminate.
    destruct (String.eqb k s) eqn:E; [|discriminate].
    apply String.eqb_eq in E. subst s. intros H. injection H as <-.
    left. reflexivity.
Qed.

Lemma status_loop_get (d : Dictionary) :
  forall acc r,
    status_loop d acc = Some r ->
    forall k,
      smap_get k r
      = match dict_last k d with
        | Some v => Some (text_of v)
        | None => smap_get k acc
        end.
Proof.
  induction d as [|[k0 v0] d IH]; intros acc r H k; simpl in *.
  - injection H as <-. reflexivity.
  - destruct (assert_bytes k0) as [key|]; [|discriminate].
    rewrite (IH _ _ H k).
    destruct (dict_last k d); [reflexivity|].
    rewrite smap_get_set. destruct (String.eqb k key); reflexivity.
Qed.

Lemma status_loop_none_iff (d : Dictionary) :
  forall acc, status_loop d acc = None <-> all_bytes (map fst d) = false.
Proof.
  unfold all_bytes.
  induction d as [|[k0 v0] d IH]; intros acc; simpl.
  - split; discriminate.
  - destruct (assert_bytes k0); simpl; [apply IH | tauto].
Qed.

Lemma status_loop_NoDup (d : Dictionary) :
  forall acc r,
    NoDup (smap_keys acc) -> status_loop d acc = Some r ->
    NoDup (smap_keys r) /\ (length r <= length acc + length d)%nat.
Proof.
  induction d as [|[k0 v0] d IH]; intros acc r Hn H; simpl in *.
  - injection H as <-. split; [exact Hn | lia].
  - destruct (assert_bytes k0) as [key|]; [|discriminate].
    destruct (IH _ _ (smap_set_NoDup key (text_of v0) acc Hn) H) as [H1 H2].
    split; [exact H1|].
    unfold smap_set in H2. simpl in H2.
    pose proof (smap_remove_length key acc). lia.
Qed.

Lemma text_of_not_bytes (v : value) : assert_bytes (text_of v) = None.
Proof. destruct v; reflexivity. Qed.

Lemma torrents_loop_get (d : Dictionary) :
  forall acc r,
    torrents_loop d acc = inr r ->
    forall tid,
      smap_get tid r
      = match dict_last tid d with
        | Some (VDict sd) => status_loop sd []
        | Some _ => None
        | None => smap_get tid acc
        end.
Proof.
  induction d as [|[k0 v0] d IH]; intros acc r H tid; simpl in *.
  - injection H as <-. reflexivity.
  - destruct (assert_bytes k0) as [key|]; [|discriminate].
    destruct v0; try discriminate.
    destruct (status_loop d0 []) as [sm|] eqn:E; [|discriminate].
    rewrite (IH _ _ H tid).
    destruct (dict_last tid d); [reflexivity|].
    rewrite smap_get_set. destruct (String.eqb tid key); [|reflexivity].
    symmetry. exact E.
Qed.

Lemma torrents_loop_ok_iff (d : Dictionary) :
  forall acc,
    (exists r, torrents_loop d acc = inr r) <-> convertible d = true.
Proof.
  unfold convertible.
  induction d as [|[k0 v0] d IH]; intros acc; simpl.
  - split; [reflexivity | eauto].
  - destruct (assert_bytes k0) as [key|]; simpl;
      [|split; [intros [r H]; discriminate H | discriminate]].
    destruct v0; simpl;
      try (split; [intros [r H]; discriminate H | discriminate]).
    destruct (status_loop d0 []) as [sm|] eqn:E.
    + assert (Hb : all_bytes (map fst d0) = true).
      { destruct (all_bytes (map fst d0)) eqn:B; [reflexivity|].
        apply (status_loop_none_iff d0 []) in B. congruence. }
      rewrite Hb. simpl. apply IH.
    + apply status_loop_none_iff in E. rewrite E. simpl.
      split; [intros [r H]; discriminate H | discriminate].
Qed.

Lemma bind_result {A B} (m : M A) (k : A -> M B) (c : Client) :
  fst (fst (bind m k c))
  = match fst (fst (m c)) with
    | Returns a => fst (fst (k a (snd (fst (m c)))))
    | Panics msg => Panics msg
    end.
Proof.
  unfold bind. destruct (m c) as [[[a | msg] c1] t]; simpl; [|reflexivity].
  destruct (k a c1) as [[r c2] t2]. reflexivity.
Qed.

Section WrapperResults.
Context {R : Rencode} {R2 : RencodeMore} {F : GoSyntax}.

Ltac enter_wrapper H :=
  rewrite ?emit_then; simpl fst; rewrite bind_result, H; simpl.

(** X16. When the daemon's answer to [MethodsList] scans as a list, the
    call returns the names exactly when every element is a byte string, the
    names being those byte strings as text, in order and as many; it panics
    exactly when some element is anything else. *)
Theorem X16_MethodsList_names io c resp methodsList :
  fst (fst (Rpc io "daemon.get_method_list" [] [] c))
  = Returns (Some resp, None) ->
  IsError resp = false ->
  Scan_List (returnValue resp) = inr methodsList ->
  (forall names,
     fst (fst (MethodsList io c)) = Returns (Some names, None)
     <-> methodsList = map VBytes names)
  /\ (fst (fst (MethodsList io c)) = Panics not_bytes
      <-> all_bytes methodsList = false).
Proof.
  intros H HI HS. unfold MethodsList. enter_wrapper H. rewrite HI, HS.
  split.
  - intros names. rewrite <- strings_of_iff.
    destruct (strings_of methodsList); simpl; split; intros E;
      try discriminate E; injection E as ->; reflexivity.
  - rewrite <- strings_of_none_iff.
    destruct (strings_of methodsList); simpl; split; intros E;
      try discriminate E; reflexivity.
Qed.

(** X17. [GetSessionState] converts the daemon's list of torrent ids the
    same way: the ids are the byte strings of the list as text, in order,
    exactly when every element is a byte string, and the call panics exactly
    when some element is not. *)
Theorem X17_GetSessionState_ids io c resp idList :
  fst (fst (Rpc io "core.get_session_state" [] [] c))
  = Returns (Some resp, None) ->
  IsError resp = false ->
  Scan_List (returnValue resp) = inr idList ->
  (forall ids,
     fst (fst (GetSessionState io c)) = Returns (Some ids, None)
     <-> idList = map VBytes ids)
  /\ (fst (fst (GetSessionState io c)) = Panics not_bytes
      <-> all_bytes idList = false).
Proof.
  intros H HI HS. unfold GetSessionState. enter_wrapper H. rewrite HI, HS.
  split.
  - intros ids. rewrite <- strings_of_iff.
    destruct (strings_of idList); simpl; split; intros E;
      try discriminate E; injection E as ->; reflexivity.
  - rewrite <- strings_of_none_iff.
    destruct (strings_of idList); simpl; split; intros E;
      try discriminate E; reflexivity.
Qed.

(** X18. When the daemon's answer to [GetTorrentStatus] scans as a
    dictionary, the call panics if some key is not a byte string; otherwise
    it returns a map in which a key is bound exactly when the dictionary has
    an entry under it, to the value of the last such entry, a byte string
    turned into text. *)
Theorem X18_GetTorrentStatus_lookup io id keys diff c resp statusDict :
  fst (fst (Rpc io "core.get_torrent_status"
              [VString id; VList (sliceToRencodeList keys); VBool diff] [] c))
  = Returns (Some resp, None) ->
  IsError resp = false ->
  Scan_Dictionary (returnValue resp) = inr statusDict ->
  (all_bytes (map fst statusDict) = false ->
   fst (fst (GetTorrentStatus io id keys diff c)) = Panics not_bytes)
  /\ (all_bytes (map fst statusDict) = true ->
      exists result,
        fst (fst (GetTorrentStatus io id keys diff c))
        = Returns (Some result, None)
        /\ forall k,
             smap_get k result = option_map text_of (dict_last k statusDict)).
Proof.
  intros H HI HS. unfold GetTorrentStatus. enter_wrapper H. rewrite HI, HS.
  destruct (status_loop statusDict []) as [result|] eqn:E; simpl.
  - split.
    + intros B. apply (status_loop_none_iff statusDict []) in B. congruence.
    + intros _. exists result. split; [reflexivity|].
      intros k. rewrite (status_loop_get _ _ _ E k).
      destruct (dict_last k statusDict); reflexivity.
  - split; [reflexivity|].
    intros B. apply (status_loop_none_iff statusDict []) in E. congruence.
Qed.

(** X19. The map [GetTorrentStatus] returns has one binding per key and no
    more bindings than the dictionary has entries; no value in it is a byte
    string; and a value that is not a byte string, such as a list or a
    dictionary that holds byte strings, is returned as it came: the
    conversion to text does not descend. *)
Theorem X19_GetTorrentStatus_shape io id keys diff c resp statusDict result :
  fst (fst (Rpc io "core.get_torrent_status"
              [VString id; VList (sliceToRencodeList keys); VBool diff] [] c))
  = Returns (Some resp, None) ->
  IsError resp = false ->
  Scan_Dictionary (returnValue resp) = inr statusDict ->
  fst (fst (GetTorrentStatus io id keys diff c)) = Returns (Some result, None) ->
  NoDup (smap_keys result)
  /\ (length result <= length statusDict)%nat
  /\ (forall k v, smap_get k result = Some v -> assert_bytes v = None)
  /\ (forall k v,
        dict_last k statusDict = Some v -> assert_bytes v = None ->
        smap_get k result = Some v).
Proof.
  intros H HI HS. unfold GetTorrentStatus. enter_wrapper H. rewrite HI, HS.
  destruct (status_loop statusDict []) as [r|] eqn:E; simpl;
    intros Hr; [|discriminate Hr].
  injection Hr as ->.
  destruct (status_loop_NoDup statusDict [] result (NoDup_nil _) E) as [N L].
  split; [exact N|]. split; [exact L|]. split.
  - intros k v Hk. rewrite (status_loop_get _ _ _ E k) in Hk.
    destruct (dict_last k statusDict); [|discriminate Hk].
    injection Hk as <-. apply text_of_not_bytes.
  - intros k v Hk Hv. rewrite (status_loop_get _ _ _ E k), Hk.
    destruct v; simpl in *; try reflexivity. discriminate Hv.
Qed.

(** X20. When the daemon's answer to [GetTorrentsStatus] scans as a
    dictionary, the call returns a map exactly when every key is a byte
    string and every value a dictionary with byte-string keys, and panics
    otherwise.  The map binds a torrent id exactly when the dictionary has
    an entry under it, to the status map of the last such entry, converted
    as [GetTorrentStatus] converts it. *)
Theorem X20_GetTorrentsStatus_lookup io filter keys diff c resp resultDict :
  fst (fst (Rpc io "core.get_torrents_status"
              [VDict (filter_to_Dictionary filter);
               VList (sliceToRencodeList keys); VBool diff] [] c))
  = Returns (Some resp, None) ->
  IsError resp = false ->
  Scan_Dictionary (returnValue resp) = inr resultDict ->
  ((exists result,
      fst (fst (GetTorrentsStatus io filter keys diff c))
      = Returns (Some result, None))
   <-> convertible resultDict = true)
  /\ ((exists msg,
         fst (fst (GetTorrentsStatus io filter keys diff c)) = Panics msg)
      <-> convertible resultDict = false)
  /\ (forall result,
        fst (fst (GetTorrentsStatus io filter keys diff c))
        = Returns (Some result, None) ->
        forall tid,
          smap_get tid result
          = match dict_last tid resultDict with
            | Some (VDict statusDict) => status_loop statusDict []
            | _ => None
            end).
Proof.
  intros H HI HS. unfold GetTorrentsStatus. enter_wrapper H. rewrite HI, HS.
  rewrite emit_then. simpl fst.
  pose proof (torrents_loop_ok_iff resultDict []) as W.
  destruct (torrents_loop resultDict []) as [msg | result] eqn:E.
  - assert (B : convertible resultDict = false).
    { destruct (convertible resultDict); [|reflexivity].
      destruct (proj2 W eq_refl) as [r Hr]. discriminate Hr. }
    unfold panic. simpl. rewrite B. split; [|split].
    + split; [intros [r Hr]; discriminate Hr | discriminate].
    + split; [reflexivity | eauto].
    + intros r Hr. discriminate Hr.
  - assert (B : convertible resultDict = true) by (apply W; eauto).
    rewrite emit_then. unfold ret. simpl. rewrite B. split; [|split].
    + split; [reflexivity | eauto].
    + split; [intros [msg Hm]; discriminate Hm | discriminate].
    + intros r Hr. injection Hr as <-. intros tid.
      rewrite (torrents_loop_get _ _ _ E tid).
      destruct (dict_last tid resultDict) as [[]|]; reflexivity.
Qed.

Lemma Rpc_unlogged io m a kw c :
  Logger (settings c) = None -> filter is_Log (snd (Rpc io m a kw c)) = [].
Proof.
  intros HL. rewrite Rpc_paths. cbv zeta. unfold log_events.
  repeat (try (rewrite !Rpc_classify_eq; cbv zeta; unfold log_events);
          simpl; rewrite ?HL; break_match; simpl in * );
    repeat (rewrite filter_app; simpl); rewrite ?HL; reflexivity.
Qed.

(** X21. [GetTorrentsStatus] writes to the standard logger of package
    [log], whatever the settings say: on a client with no logger its trace
    has at least two log lines (the filter and the arguments, before the
    request) and every one of them goes to the standard logger, while
    [GetTorrentStatus] on the same client logs nothing. *)
Theorem X21_GetTorrentsStatus_logs_to_std io filter id keys diff c :
  Logger (settings c) = None ->
  let logs := List.filter is_Log (snd (GetTorrentsStatus io filter keys diff c)) in
  (2 <= length logs)%nat
  /\ Forall (fun e => exists line, e = EvLog log_std line) logs
  /\ List.filter is_Log (snd (GetTorrentStatus io id keys diff c)) = [].
Proof.
  intros HL. cbv zeta.
  unfold GetTorrentsStatus, GetTorrentStatus. rewrite !emit_then. simpl snd.
  unfold bind.
  pose proof (Rpc_unlogged io "core.get_torrents_status"
                [VDict (filter_to_Dictionary filter);
                 VList (sliceToRencodeList keys); VBool diff] [] c HL) as U1.
  pose proof (Rpc_unlogged io "core.get_torrent_status"
                [VString id; VList (sliceToRencodeList keys); VBool diff]
                [] c HL) as U2.
  destruct (Rpc io "core.get_torrents_status" _ [] c)
    as [[[[[r1|] [e1|]] | m1] c1] t1];
  destruct (Rpc io "core.get_torrent_status" _ [] c)
    as [[[[[r2|] [e2|]] | m2] c2] t2];
  unfold ret, panic, emit; simpl in *;
  repeat (break_match; simpl in * );
  repeat (rewrite filter_app; simpl); rewrite ?U1, ?U2; simpl;
  (split; [lia | split; [repeat constructor; eauto | reflexivity]]).
Qed.

(** X22. After a non-error response, [AddTorrentURL] is decided by the first
    return value: when there is none it returns the library's error; nil
    gives the empty string, a byte string gives its text, both with a nil
    error; any other value makes it panic. *)
Theorem X22_AddTorrentURL_hash io url opts c resp :
  fst (fst (Rpc io "core.add_torrent_url"
              [VString url; VDict (mapToRencodeDictionary opts)] [] c))
  = Returns (Some resp, None) ->
  IsError resp = false ->
  (forall e, Get (returnValue resp) 0 = inl e ->
     fst (fst (AddTorrentURL io url opts c)) = Returns ("", Some (OfLib e)))
  /\ (Get (returnValue resp) 0 = inr VNil ->
      fst (fst (AddTorrentURL io url opts c)) = Returns ("", None))
  /\ (forall s, Get (returnValue resp) 0 = inr (VBytes s) ->
      fst (fst (AddTorrentURL io url opts c)) = Returns (s, None))
  /\ (forall v, Get (returnValue resp) 0 = inr v ->
      v <> VNil -> assert_bytes v = None ->
      fst (fst (AddTorrentURL io url opts c)) = Panics not_bytes).
Proof.
  intros H HI. unfold AddTorrentURL. enter_wrapper H. rewrite HI.
  repeat split.
  - intros e ->. reflexivity.
  - intros ->. reflexivity.
  - intros s ->. reflexivity.
  - intros v -> Hn Hb. destruct v; simpl in *; try reflexivity;
      [contradiction Hn; reflexivity | discriminate Hb].
Qed.

(** X23. After a non-error response, [AddTorrentMagnet] returns the text of
    the first return value when it is a byte string, the library's error
    when there is no first value, and panics when the value is neither nil
    nor a byte string. *)
Theorem X23_AddTorrentMagnet_hash io uri opts c resp :
  fst (fst (Rpc io "core.add_torrent_magnet"
              [VString uri; VDict (mapToRencodeDictionary opts)] [] c))
  = Returns (Some resp, None) ->
  IsError resp = false ->
  (forall e, Get (returnValue resp) 0 = inl e ->
     fst (fst (AddTorrentMagnet io uri opts c)) = Returns ("", Some (OfLib e)))
  /\ (forall s, Get (returnValue resp) 0 = inr (VBytes s) ->
      fst (fst (AddTorrentMagnet io uri opts c)) = Returns (s, None))
  /\ (forall v, Get (returnValue resp) 0 = inr v ->
      v <> VNil -> assert_bytes v = None ->
      exists msg, fst (fst (AddTorrentMagnet io uri opts c)) = Panics msg).
Proof.
  intros H HI. unfold AddTorrentMagnet. enter_wrapper H. rewrite HI.
  repeat split.
  - intros e ->. reflexivity.
  - intros s ->. reflexivity.
  - intros v -> Hn Hb. destruct v; simpl in *; eauto;
      [contradiction Hn; reflexivity | discriminate Hb].
Qed.

End WrapperResults.

(** ** The settings over the life of a client *)

Section Lifetime.
Context {R : Rencode}.




End Lifetime.

(** ** Concrete runs of the further properties *)

Lemma X4_Rpc_without_connection_panics_witness :
  fst (fst (Rpc (R := Ref.rencode) Ref.broken_pipe "daemon.info" [] []
              (snd (fst (Close None Ref.connected)))))
  = Panics nil_deref.
Proof.
  refine (proj1 (X4_Rpc_without_connection_panics (R := Ref.rencode)
                   Ref.broken_pipe "daemon.info" [] []
                   (snd (fst (Close None Ref.connected))) _ _ _));
    reflexivity.
Defined.

Lemma X5_Rpc_response_payload_witness :
  exists resp,
    fst (fst (Rpc (R := Ref.rencode)
                (Ref.answer 0 [VInt8 1; VInt8 2; VBytes "1.3.15"])
                "daemon.info" [] [] Ref.connected))
    = Returns (Some resp, None)
    /\ returnValue resp = [VBytes "1.3.15"].
Proof.
  destruct (X5_Rpc_response_payload (R := Ref.rencode)
              (Ref.answer 0 [VInt8 1; VInt8 2; VBytes "1.3.15"])
              "daemon.info" [] [] Ref.connected
              [VInt8 1; VInt8 2; VBytes "1.3.15"] 2 [VBytes "1.3.15"])
    as [resp [H1 [H2 _]]].
  - split; [exists (Socket 0); simpl; tauto | reflexivity].
  - split; [reflexivity | do 2 eexists; reflexivity].
  - vm_compute. reflexivity.
  - exists resp. split; assumption.
Defined.

Lemma X6_Rpc_encode_failure_witness :
  fst (fst (Rpc (R := Ref.rencode) RefMore.unencodable "daemon.info" [] []
              Ref.connected))
  = Returns (None, Some (OfLib (LibError "rencode: unsupported type")))
  /\ trace_serials
       (snd (Rpc (R := Ref.rencode) Ref.login_ok "daemon.info" [] []
               (snd (fst (Rpc (R := Ref.rencode) RefMore.unencodable
                            "daemon.info" [] [] Ref.connected)))))
     = [3].
Proof.
  destruct (X6_Rpc_encode_failure (R := Ref.rencode) RefMore.unencodable
              "daemon.info" [] [] Ref.connected
              (LibError "rencode: unsupported type")
              (or_introl eq_refl) Ref.login_ok "daemon.info" [] [])
    as [H1 [_ H3]].
  split; [exact H1 | exact H3].
Defined.

Lemma X7_Rpc_error_kinds_witness :
  OfLib (LibError "broken pipe") <> ErrAlreadyClosed.
Proof.
  refine (proj1 (proj2 (X7_Rpc_error_kinds (R := Ref.rencode) Ref.broken_pipe
                          "daemon.info" [] [] Ref.connected None
                          (OfLib (LibError "broken pipe")) _))).
  vm_compute. reflexivity.
Defined.

Lemma X16_MethodsList_names_witness :
  fst (fst (MethodsList (R := Ref.rencode)
              (Ref.answer 0 [VInt8 1; VInt8 2;
                             VList [VBytes "daemon.info"; VBytes "core.pause"]])
              Ref.connected))
  = Returns (Some ["daemon.info"; "core.pause"], None).
Proof.
  refine (proj2 (proj1 (X16_MethodsList_names (R := Ref.rencode)
                          (Ref.answer 0 [VInt8 1; VInt8 2;
                             VList [VBytes "daemon.info"; VBytes "core.pause"]])
                          Ref.connected
                          (mkDelugeResponse 1 2
                             [VList [VBytes "daemon.info"; VBytes "core.pause"]]
                             "" "" "" "" [])
                          [VBytes "daemon.info"; VBytes "core.pause"] _ _ _)
                   ["daemon.info"; "core.pause"]) _);
    reflexivity.
Defined.

Lemma X17_GetSessionState_ids_witness :
  fst (fst (GetSessionState (R := Ref.rencode)
              (Ref.answer 0 [VInt8 1; VInt8 2; VList [VBytes "abc"; VInt8 7]])
              Ref.connected))
  = Panics not_bytes.
Proof.
  refine (proj2 (proj2 (X17_GetSessionState_ids (R := Ref.rencode)
                          (Ref.answer 0 [VInt8 1; VInt8 2;
                                         VList [VBytes "abc"; VInt8 7]])
                          Ref.connected
                          (mkDelugeResponse 1 2 [VList [VBytes "abc"; VInt8 7]]
                             "" "" "" "" [])
                          [VBytes "abc"; VInt8 7] _ _ _)) _);
    reflexivity.
Defined.

Lemma X18_GetTorrentStatus_lookup_witness :
  exists result,
    fst (fst (GetTorrentStatus (R := Ref.rencode) (R2 := RefMore.rencode_more)
                (Ref.answer 0 [VInt8 1; VInt8 2; VDict RefMore.status])
                "abc" ["name"; "progress"; "trackers"] false Ref.connected))
    = Returns (Some result, None)
    /\ smap_get "name" result = Some (VString "debian.iso").
Proof.
  destruct (proj2 (X18_GetTorrentStatus_lookup (R := Ref.rencode)
                     (R2 := RefMore.rencode_more)
                     (Ref.answer 0 [VInt8 1; VInt8 2; VDict RefMore.status])
                     "abc" ["name"; "progress"; "trackers"] false
                     Ref.connected
                     (mkDelugeResponse 1 2 [VDict RefMore.status]
                        "" "" "" "" [])
                     RefMore.status
                     ltac:(vm_compute; reflexivity) eq_refl eq_refl) eq_refl)
    as [result [H1 H2]].
  exists result. split; [exact H1 | exact (H2 "name")].
Defined.

Lemma X19_GetTorrentStatus_shape_witness :
  smap_get "trackers"
    [("trackers", VList [VBytes "udp://tracker"]);
     ("progress", VFloat32 1120403456); ("name", VString "debian.iso")]
  = Some (VList [VBytes "udp://tracker"]).
Proof.
  refine (proj2 (proj2 (proj2
    (X19_GetTorrentStatus_shape (R := Ref.rencode)
       (R2 := RefMore.rencode_more)
       (Ref.answer 0 [VInt8 1; VInt8 2; VDict RefMore.status])
       "abc" ["name"; "progress"; "trackers"] false Ref.connected
       (mkDelugeResponse 1 2 [VDict RefMore.status] "" "" "" "" [])
       RefMore.status
       [("trackers", VList [VBytes "udp://tracker"]);
        ("progress", VFloat32 1120403456); ("name", VString "debian.iso")]
       _ _ _ _))) "trackers" (VList [VBytes "udp://tracker"]) _ _);
    try reflexivity; vm_compute; reflexivity.
Defined.

Lemma X20_GetTorrentsStatus_lookup_witness :
  exists result,
    fst (fst (GetTorrentsStatus (R := Ref.rencode)
                (R2 := RefMore.rencode_more) (F := RefMore.sizes)
                (Ref.answer 0 [VInt8 1; VInt8 2;
                               VDict [(VBytes "abc", VDict RefMore.status)]])
                [("state", ["Seeding"])] ["name"] false Ref.connected))
    = Returns (Some result, None).
Proof.
  refine (proj2 (proj1
    (X20_GetTorrentsStatus_lookup (R := Ref.rencode)
       (R2 := RefMore.rencode_more) (F := RefMore.sizes)
       (Ref.answer 0 [VInt8 1; VInt8 2;
                      VDict [(VBytes "abc", VDict RefMore.status)]])
       [("state", ["Seeding"])] ["name"] false Ref.connected
       (mkDelugeResponse 1 2 [VDict [(VBytes "abc", VDict RefMore.status)]]
          "" "" "" "" [])
       [(VBytes "abc", VDict RefMore.status)] _ _ _)) _);
    try reflexivity; vm_compute; reflexivity.
Defined.

Lemma X21_GetTorrentsStatus_logs_to_std_witness :
  (2 <= length
          (List.filter is_Log
             (snd (GetTorrentsStatus (R := Ref.rencode)
                     (R2 := RefMore.rencode_more) (F := RefMore.sizes)
                     Ref.broken_pipe [] [] false Ref.connected))))%nat.
Proof.
  refine (proj1 (X21_GetTorrentsStatus_logs_to_std (R := Ref.rencode)
                   (R2 := RefMore.rencode_more) (F := RefMore.sizes)
                   Ref.broken_pipe [] "abc" [] false Ref.connected _)).
  reflexivity.
Defined.

Lemma X22_AddTorrentURL_hash_witness :
  fst (fst (AddTorrentURL (R := Ref.rencode)
              (Ref.answer 0 [VInt8 1; VInt8 2; VBytes "0123abcd"])
              "http://host/debian.torrent" [] Ref.connected))
  = Returns ("0123abcd", None).
Proof.
  refine (proj1 (proj2 (proj2
    (X22_AddTorrentURL_hash (R := Ref.rencode)
       (Ref.answer 0 [VInt8 1; VInt8 2; VBytes "0123abcd"])
       "http://host/debian.torrent" [] Ref.connected
       (mkDelugeResponse 1 2 [VBytes "0123abcd"] "" "" "" "" []) _ _)))
    "0123abcd" _);
    try reflexivity; vm_compute; reflexivity.
Defined.

Lemma X23_AddTorrentMagnet_hash_witness :
  exists msg,
    fst (fst (AddTorrentMagnet (R := Ref.rencode)
                (Ref.answer 0 [VInt8 1; VInt8 2; VBool true])
                "magnet:?xt=urn:btih:abc" [] Ref.connected))
    = Panics msg.
Proof.
  refine (proj2 (proj2
    (X23_AddTorrentMagnet_hash (R := Ref.rencode)
       (Ref.answer 0 [VInt8 1; VInt8 2; VBool true])
       "magnet:?xt=urn:btih:abc" [] Ref.connected
       (mkDelugeResponse 1 2 [VBool true] "" "" "" "" []) _ _))
    (VBool true) _ _ _);
    try reflexivity; try discriminate; vm_compute; reflexivity.
Defined.
